(** * MAESTRO component matcher: a shallow embedding and its properties

    The two entry points [c_app.py] and [crane_app.py] carry the same
    core functions ([normalize_units], [within_tolerance],
    [match_component_to_spec], [suggest_alternatives],
    [generate_component_summary], [process_bulk_components],
    [save_program_data], [load_program_data]), character for character.
    They are embedded once.

    Conventions of the embedding:
    - a Python [str] is the list of its Unicode code points;
    - a Python [float] is an IEEE-754 binary64 value ([spec_float] at
      precision 53, maximal exponent 1024);
    - a Python [dict] is the list of its (key, value) entries in
      insertion order, keys pairwise distinct;
    - a call that can raise returns a [result];
    - the file system is its directories and its regular files, with the
      working directory among them, and without links. *)

From Stdlib Require Import List String Ascii Bool Lia.
From Stdlib Require Import NArith ZArith.
From Stdlib Require Import Floats.SpecFloat.
From Stdlib Require Import DecimalPos.
Import ListNotations.

Set Implicit Arguments.

(** ** Python strings *)

Module PyStr.

Definition codepoint := N.
Definition pystr := list codepoint.

(** A literal of the source, written as a Rocq string (Basic Latin only). *)
Definition py (s : string) : pystr := map N_of_ascii (list_ascii_of_string s).

Fixpoint eqb (a b : pystr) : bool :=
  match a, b with
  | [], [] => true
  | x :: a', y :: b' => N.eqb x y && eqb a' b'
  | _, _ => false
  end.

(** [str.isspace] per code point: the characters [str.strip()] removes. *)
Definition is_space (c : codepoint) : bool :=
  ((9 <=? c) && (c <=? 13) || (28 <=? c) && (c <=? 32)
   || (c =? 133) || (c =? 160) || (c =? 5760)
   || (8192 <=? c) && (c <=? 8202)
   || (c =? 8232) || (c =? 8233) || (c =? 8239) || (c =? 8287)
   || (c =? 12288))%N.

Fixpoint lstrip (s : pystr) : pystr :=
  match s with
  | [] => []
  | c :: t => if is_space c then lstrip t else s
  end.

Definition rstrip (s : pystr) : pystr := rev (lstrip (rev s)).

(** [s.strip()] *)
Definition strip (s : pystr) : pystr := rstrip (lstrip s).

(** [str.lower] per code point, on the capitals of Basic Latin, of
    Latin-1, of the Greek and the Cyrillic alphabets, and on the
    letter-like signs OHM, KELVIN and ANGSTROM; other code points are left
    as they are, and a capital sigma gets its medial form wherever it
    stands.  [K] and the KELVIN SIGN are the only code points of
    Unicode whose lower case is [k]; none has the MICRO SIGN or GREEK
    CAPITAL OMEGA as its lower case. *)
Definition lower_cp (c : codepoint) : codepoint :=
  (if (65 <=? c) && (c <=? 90) then c + 32
   else if (192 <=? c) && (c <=? 222) && negb (c =? 215) then c + 32
   else if (913 <=? c) && (c <=? 939) && negb (c =? 930) then c + 32
   else if (1024 <=? c) && (c <=? 1039) then c + 80
   else if (1040 <=? c) && (c <=? 1071) then c + 32
   else if c =? 8486 then 969
   else if c =? 8490 then 107
   else if c =? 8491 then 229
   else c)%N.

(** [s.lower()] *)
Definition lower (s : pystr) : pystr := map lower_cp s.

Fixpoint starts_with (p s : pystr) : bool :=
  match p, s with
  | [], _ => true
  | x :: p', y :: s' => N.eqb x y && starts_with p' s'
  | _ :: _, [] => false
  end.

(** [s.replace(old, new)] for a non-empty [old]: occurrences are found
    left to right and do not overlap.  [skip] counts the characters of
    an occurrence just replaced that are still to be dropped. *)
Fixpoint replace_from (old new : pystr) (skip : nat) (s : pystr) : pystr :=
  match s with
  | [] => []
  | c :: t =>
      match skip with
      | S k => replace_from old new k t
      | O =>
          if starts_with old s
          then new ++ replace_from old new (List.length old - 1) t
          else c :: replace_from old new 0 t
      end
  end.

Definition replace (old new s : pystr) : pystr := replace_from old new 0 s.

(** [sep.join(parts)] *)
Fixpoint join (sep : pystr) (parts : list pystr) : pystr :=
  match parts with
  | [] => []
  | [p] => p
  | p :: rest => p ++ sep ++ join sep rest
  end.

(** First code points of the runs of ten decimal digits of Unicode 14
    (general category Nd), the version of the interpreter's tables. *)
Definition decimal_digit_runs : list codepoint :=
  [48; 1632; 1776; 1984; 2406; 2534; 2662; 2790; 2918; 3046; 3174; 3302;
   3430; 3558; 3664; 3792; 3872; 4160; 4240; 6112; 6160; 6470; 6608; 6784;
   6800; 6992; 7088; 7232; 7248; 42528; 43216; 43264; 43472; 43504; 43600;
   44016; 65296; 66720; 68912; 69734; 69872; 69942; 70096; 70384; 70736;
   70864; 71248; 71360; 71472; 71904; 72016; 72784; 73040; 73120; 92768;
   92864; 93008; 120782; 120792; 120802; 120812; 120822; 123200; 123632;
   125264; 130032]%N.

(** The digit value of a code point of category Nd. *)
Definition digit_value (c : codepoint) : option N :=
  match find (fun s => (s <=? c) && (c <? s + 10))%N decimal_digit_runs with
  | Some s => Some (c - s)%N
  | None => None
  end.

(** What the pattern [\d] matches on a [str]. *)
Definition is_digit (c : codepoint) : bool :=
  match digit_value c with Some _ => true | None => false end.

(** [re.search(r"\d", s)] as a truth value. *)
Definition has_digit (s : pystr) : bool := existsb is_digit s.

End PyStr.
Export PyStr.

(** ** Exceptions *)

Inductive exn : Type :=
  | ValueError
  | OverflowError
  | ZeroDivisionError
  | UnboundLocalError
  | TypeError
  | FileNotFoundError
  | NotADirectoryError
  | IsADirectoryError
  | FileExistsError
  | OSError.

Inductive result (A : Type) : Type :=
  | Ok (a : A)
  | Raise (e : exn).
Arguments Ok {A} a.
Arguments Raise {A} e.

Definition bind {A B : Type} (r : result A) (k : A -> result B) : result B :=
  match r with
  | Ok a => k a
  | Raise e => Raise e
  end.

Declare Scope py_scope.
Delimit Scope py_scope with py.
Notation "x <- r ;; k" := (bind r (fun x => k))
  (at level 61, r at next level, right associativity) : py_scope.

(** ** Python floats *)

Module PyFloat.

Definition prec : Z := 53.
Definition emax : Z := 1024.
Definition float := spec_float.

Definition is_zero (f : float) : bool :=
  match f with S754_zero _ => true | _ => false end.
Definition is_nan (f : float) : bool :=
  match f with S754_nan => true | _ => false end.
Definition is_finite (f : float) : bool :=
  match f with S754_zero _ | S754_finite _ _ _ => true | _ => false end.

Definition sub : float -> float -> float := SFsub prec emax.
Definition abs : float -> float := SFabs.
Definition leb : float -> float -> bool := SFleb.
Definition ltb : float -> float -> bool := SFltb.

(** [a / b]: true division of floats raises on a zero divisor. *)
Definition div (a b : float) : result float :=
  if is_zero b then Raise ZeroDivisionError else Ok (SFdiv prec emax a b).

(** The float nearest to [m * 10^e] (ties to even), the value a decimal
    literal denotes. *)
Definition of_decimal (neg : bool) (m : N) (e : Z) : float :=
  match m with
  | N0 => S754_zero neg
  | Npos p =>
      if (0 <=? e)%Z
      then binary_normalize prec emax (cond_Zopp neg (Zpos p * 10 ^ e)) 0 neg
      else
        let '(q, e', l) :=
          SFdiv_core_binary prec emax (Zpos p) 0 (10 ^ (- e)) 0 in
        binary_round_aux prec emax neg q e' l
  end.

(** [float(n)] for an [int]: the nearest float, unless it is out of range. *)
Definition of_int (z : Z) : result float :=
  match binary_normalize prec emax z 0 false with
  | S754_infinity _ => Raise OverflowError
  | f => Ok f
  end.

(** Before parsing, [float] maps every non-ASCII space to a blank and
    every non-ASCII decimal digit to its ASCII digit. *)
Definition to_ascii (c : codepoint) : codepoint :=
  (if c <? 128 then c
   else if is_space c then 32
   else match digit_value c with
        | Some d => 48 + d
        | None => 63
        end)%N.

Definition is_c_space (c : codepoint) : bool :=
  ((9 <=? c) && (c <=? 13) || (c =? 32))%N.

Fixpoint skip_c_space (s : pystr) : pystr :=
  match s with
  | [] => []
  | c :: t => if is_c_space c then skip_c_space t else s
  end.

Definition trim (s : pystr) : pystr :=
  rev (skip_c_space (rev (skip_c_space s))).

Definition is_ascii_digit (c : codepoint) : bool :=
  ((48 <=? c) && (c <=? 57))%N.

(** An underscore is accepted between two digits and dropped. *)
Fixpoint drop_underscores (prev : codepoint) (s : pystr) : option pystr :=
  match s with
  | [] => if (prev =? 95)%N then None else Some []
  | c :: t =>
      if (c =? 95)%N
      then if is_ascii_digit prev then drop_underscores c t else None
      else if (prev =? 95)%N && negb (is_ascii_digit c) then None
      else option_map (cons c) (drop_underscores c t)
  end.

Fixpoint take_digits (s : pystr) : list N * pystr :=
  match s with
  | c :: t =>
      if is_ascii_digit c
      then let '(ds, r) := take_digits t in ((c - 48)%N :: ds, r)
      else ([], s)
  | [] => ([], [])
  end.

Definition digits_to_N (ds : list N) : N :=
  fold_left (fun acc d => (10 * acc + d)%N) ds 0%N.

Definition is_nil {A : Type} (l : list A) : bool :=
  match l with [] => true | _ => false end.

(** Mantissa digits with an optional point and an optional exponent:
    the integer mantissa and the power of ten. *)
Definition parse_decimal (s : pystr) : option (N * Z) :=
  let '(ip, r1) := take_digits s in
  let '(fp, r2) :=
    match r1 with
    | 46%N :: r => take_digits r
    | _ => ([], r1)
    end in
  if is_nil ip && is_nil fp then None
  else
    let m := digits_to_N (ip ++ fp) in
    let scale := Z.of_nat (List.length fp) in
    match r2 with
    | [] => Some (m, (- scale)%Z)
    | c :: r3 =>
        if (c =? 101)%N || (c =? 69)%N
        then
          let '(eneg, r4) :=
            match r3 with
            | 45%N :: r => (true, r)
            | 43%N :: r => (false, r)
            | _ => (false, r3)
            end in
          match take_digits r4 with
          | ((_ :: _) as ed, []) =>
              Some (m, (cond_Zopp eneg (Z.of_N (digits_to_N ed)) - scale)%Z)
          | _ => None
          end
        else None
    end.

Definition ascii_lower (c : codepoint) : codepoint :=
  (if (65 <=? c) && (c <=? 90) then c + 32 else c)%N.

(** [float(s)] for a [str]. *)
Definition of_str (s : pystr) : result float :=
  match drop_underscores 0%N (trim (map to_ascii s)) with
  | None => Raise ValueError
  | Some t =>
      let '(neg, body) :=
        match t with
        | 45%N :: r => (true, r)
        | 43%N :: r => (false, r)
        | _ => (false, t)
        end in
      let word := map ascii_lower body in
      if PyStr.eqb word (py "inf") || PyStr.eqb word (py "infinity")
      then Ok (S754_infinity neg)
      else if PyStr.eqb word (py "nan") then Ok S754_nan
      else match parse_decimal body with
           | Some (m, e) => Ok (of_decimal neg m e)
           | None => Raise ValueError
           end
  end.

(** *** Printing

    [repr] of a float is the shortest decimal string that reads back as
    the same float, the nearest to it among the shortest. *)

Fixpoint uint_digits (u : Decimal.uint) : pystr :=
  match u with
  | Decimal.Nil => []
  | Decimal.D0 u' => 48%N :: uint_digits u'
  | Decimal.D1 u' => 49%N :: uint_digits u'
  | Decimal.D2 u' => 50%N :: uint_digits u'
  | Decimal.D3 u' => 51%N :: uint_digits u'
  | Decimal.D4 u' => 52%N :: uint_digits u'
  | Decimal.D5 u' => 53%N :: uint_digits u'
  | Decimal.D6 u' => 54%N :: uint_digits u'
  | Decimal.D7 u' => 55%N :: uint_digits u'
  | Decimal.D8 u' => 56%N :: uint_digits u'
  | Decimal.D9 u' => 57%N :: uint_digits u'
  end.

(** The decimal digits of a natural number, most significant first. *)
Definition str_N (n : N) : pystr := uint_digits (N.to_uint n).

(** [str(n)] for an [int].  The interpreter refuses to print an [int] of
    more than 4300 digits; the integers of a table are 64-bit ones, and
    none of the properties below rests on a longer one being printed. *)
Definition str_int (z : Z) : pystr :=
  match z with
  | Zneg p => 45%N :: str_N (Npos p)
  | _ => str_N (Z.to_N z)
  end.

Definition ndigits (z : Z) : Z := Z.of_nat (List.length (str_N (Z.to_N z))).

(** [floor (num / den * 10^j)] and whether the fraction left rounds it
    up, for positive [num] and [den]: it does above one half, and at one
    half when the floor is odd (a tie goes to the even digit). *)
Definition scaled (num den j : Z) : Z * bool :=
  let '(n', d') :=
    if (0 <=? j)%Z then (num * 10 ^ j, den)%Z else (num, den * 10 ^ (- j))%Z in
  let '(q, r) := Z.div_eucl n' d' in
  (q, (d' <? 2 * r)%Z || (d' =? 2 * r)%Z && Z.odd q).

(** The [k] with [10^(k-1) <= num / den < 10^k]. *)
Definition decimal_exponent (num den : Z) : Z :=
  let j := (ndigits num - ndigits den)%Z in
  if (1 <=? fst (scaled num den (- j)))%Z then (j + 1)%Z else j.

Definition same_float (a b : float) : bool :=
  match a, b with
  | S754_finite s m e, S754_finite s' m' e' =>
      Bool.eqb s s' && Pos.eqb m m' && Z.eqb e e'
  | _, _ => false
  end.

(** Tries [n], [n + 1], ... significant digits: the digits found, as an
    integer, and the power of ten it is multiplied by. *)
Fixpoint shortest_from (fuel : nat) (n : Z) (x : float) (num den k : Z)
  : Z * Z :=
  let '(lo, up) := scaled num den (n - k) in
  let reads c := same_float (of_decimal false (Z.to_N c) (k - n)) x in
  match fuel with
  | O => (if up then lo + 1 else lo, k - n)%Z
  | S fuel' =>
      match reads lo, reads (lo + 1)%Z with
      | true, true => (if up then lo + 1 else lo, k - n)%Z
      | true, false => (lo, (k - n)%Z)
      | false, true => ((lo + 1)%Z, (k - n)%Z)
      | false, false => shortest_from fuel' (n + 1)%Z x num den k
      end
  end.

Fixpoint drop_zeros (s : pystr) : pystr :=
  match s with
  | c :: t => if (c =? 48)%N then drop_zeros t else s
  | [] => []
  end.

(** The shortest digits of the positive float [m * 2^e], without trailing
    zeros, and how many digits stand before the decimal point. *)
Definition shortest (m : positive) (e : Z) : pystr * Z :=
  let '(num, den) :=
    if (0 <=? e)%Z then (Zpos m * 2 ^ e, 1)%Z else (Zpos m, 2 ^ (- e))%Z in
  let k := decimal_exponent num den in
  let '(c, e10) := shortest_from 16 1 (S754_finite false m e) num den k in
  let ds := str_N (Z.to_N c) in
  (rev (drop_zeros (rev ds)), (Z.of_nat (List.length ds) + e10)%Z).

Definition zeros (n : Z) : pystr := repeat 48%N (Z.to_nat n).

(** The layout of [repr]: an exponent from [1e16] on and below [1e-4]. *)
Definition layout (ds : pystr) (decpt : Z) : pystr :=
  let nd := Z.of_nat (List.length ds) in
  if (decpt <=? -4)%Z || (16 <? decpt)%Z
  then
    let x := (decpt - 1)%Z in
    let xs := str_N (Z.abs_N x) in
    firstn 1 ds
    ++ (if (1 <? nd)%Z then 46%N :: skipn 1 ds else [])
    ++ 101%N :: (if (x <? 0)%Z then 45%N else 43%N)
    :: (if (Z.abs x <? 10)%Z then 48%N :: xs else xs)
  else if (decpt <=? 0)%Z
  then py "0." ++ zeros (- decpt) ++ ds
  else if (decpt <? nd)%Z
  then firstn (Z.to_nat decpt) ds ++ 46%N :: skipn (Z.to_nat decpt) ds
  else ds ++ zeros (decpt - nd) ++ py ".0".

Definition sign_str (neg : bool) : pystr := if neg then [45%N] else [].

(** [repr(x)], which is also [str(x)], for a [float]. *)
Definition repr (x : float) : pystr :=
  match x with
  | S754_nan => py "nan"
  | S754_infinity s => sign_str s ++ py "inf"
  | S754_zero s => sign_str s ++ py "0.0"
  | S754_finite s m e =>
      let '(ds, decpt) := shortest m e in sign_str s ++ layout ds decpt
  end.

End PyFloat.
Export PyFloat.

Local Open Scope py_scope.

(** ** Scalar values and records *)

(** A cell of an uploaded table, a scalar of an uploaded JSON record or
    a field of the requirement form: a string, a number ([int] or
    [float]), a [bool] ([True] or [False], an [int] for [isinstance], but
    no [str]) or [None] (a JSON [null]). *)
Inductive value : Type :=
  | VStr (s : pystr)
  | VInt (z : Z)
  | VFloat (x : float)
  | VBool (b : bool)
  | VNone.

(** [str(v)], also what an f-string prints for [{v}]. *)
Definition str (v : value) : pystr :=
  match v with
  | VStr s => s
  | VInt z => str_int z
  | VFloat x => repr x
  | VBool true => py "True"
  | VBool false => py "False"
  | VNone => py "None"
  end.

(** [float(v)] *)
Definition float_of (v : value) : result float :=
  match v with
  | VStr s => of_str s
  | VInt z => of_int z
  | VFloat x => Ok x
  | VBool b => of_int (if b then 1 else 0)
  | VNone => Raise TypeError
  end.

(** A record: the entries of the [dict] in insertion order. *)
Definition dict : Type := list (pystr * value).

Fixpoint lookup (d : dict) (k : pystr) : option value :=
  match d with
  | [] => None
  | (k', v) :: d' => if PyStr.eqb k' k then Some v else lookup d' k
  end.

(** [d.get(k, default)] *)
Definition get (d : dict) (k : pystr) (default : value) : value :=
  match lookup d k with
  | Some v => v
  | None => default
  end.

(** ** Utility functions *)

Definition micro_sign : pystr := [181%N].
Definition capital_omega : pystr := [937%N].

Definition normalize_units (value : value) : pystr :=
  let value :=
    match value with
    | VStr s =>
        VStr (lower (replace (py "k") (py "000")
                       (replace capital_omega (py "ohm")
                          (replace micro_sign (py "u") s))))
    | _ => value
    end in
  strip (str value).

(** The body of the [try] block of [within_tolerance]. *)
Definition within_tolerance_try (expected actual : value) (tolerance : float)
  : result bool :=
  expected_val <- float_of expected ;;
  actual_val <- float_of actual ;;
  quotient <- div (abs (sub expected_val actual_val)) expected_val ;;
  Ok (leb quotient tolerance).

(** The bare [except] turns every exception into [False]. *)
Definition within_tolerance (expected actual : value) (tolerance : float)
  : bool :=
  match within_tolerance_try expected actual tolerance with
  | Ok b => b
  | Raise _ => false
  end.

(** The default [tolerance=0.05]. *)
Definition default_tolerance : float := of_decimal false 5 (-2).

(** ** Matcher *)

(** The locals [match] and [reasons] of one pass over the requirements. *)
Record scan : Type := { matched : bool; reasons : list pystr }.

Definition fail (st : scan) (reason : pystr) : scan :=
  {| matched := false; reasons := reasons st ++ [reason] |}.

Definition missing_key (key : pystr) : pystr :=
  py "Missing key: " ++ key ++ py " in component or spec.".

Definition mismatch (key user_val spec_val : pystr) : pystr :=
  py "Mismatch: user required " ++ key ++ py " = " ++ user_val
  ++ py ", SAE has " ++ spec_val.

Definition out_of_tolerance (key comp_val spec_val : pystr) : pystr :=
  py "Out of tolerance: " ++ key ++ py " component=" ++ comp_val
  ++ py " spec=" ++ spec_val.

(** The body of [for key in user_inputs], [user_inputs[key]] being the
    value of the entry at hand. *)
Definition check_key (component_data spec : dict) (st : scan)
  (entry : pystr * value) : scan :=
  let '(key, required) := entry in
  let spec_val := normalize_units (get spec key (VStr [])) in
  let comp_val := normalize_units (get component_data key (VStr [])) in
  let user_val := normalize_units required in
  if is_nil comp_val || is_nil spec_val
  then fail st (missing_key key)
  else
    let st :=
      if negb (PyStr.eqb spec_val user_val)
      then fail st (mismatch key user_val spec_val)
      else st in
    if has_digit comp_val && has_digit spec_val
    then
      if negb (within_tolerance (VStr spec_val) (VStr comp_val)
                 default_tolerance)
      then fail st (out_of_tolerance key comp_val spec_val)
      else st
    else st.

(** One iteration of [for spec in sae_specs], up to the test of [match]. *)
Definition scan_spec (component_data spec user_inputs : dict) : scan :=
  fold_left (check_key component_data spec) user_inputs
    {| matched := true; reasons := [] |}.

Definition matches_message (spec : dict) : pystr :=
  py "Component matches SAE specification: "
  ++ str (get spec (py "id") (VStr (py "N/A"))).

Definition no_match_message (reasons : list pystr) : pystr :=
  py "No SAE spec match found. Issues: " ++ join (py "; ") reasons.

(** The loop over the specs.  [bound] is what the local name [reasons]
    is bound to when the iteration starts: nothing before the first
    spec, the list of the spec before otherwise. *)
Fixpoint scan_specs (component_data : dict) (sae_specs : list dict)
  (user_inputs : dict) (bound : option (list pystr))
  : result (bool * pystr) :=
  match sae_specs with
  | [] =>
      match bound with
      | Some rs => Ok (false, no_match_message rs)
      | None => Raise UnboundLocalError
      end
  | spec :: rest =>
      let st := scan_spec component_data spec user_inputs in
      if matched st
      then Ok (true, matches_message spec)
      else scan_specs component_data rest user_inputs (Some (reasons st))
  end.

Definition match_component_to_spec (component_data : dict)
  (sae_specs : list dict) (user_inputs : dict) : result (bool * pystr) :=
  scan_specs component_data sae_specs user_inputs None.

(** ** Summary text and alternative suggester *)

Definition part_number (component : dict) : pystr :=
  str (get component (py "part_number") (VStr (py "N/A"))).

Definition generate_component_summary (component : dict) (is_match : bool)
  (reason : pystr) : pystr :=
  if is_match
  then py "Component " ++ part_number component
       ++ py " meets all program and SAE specifications. "
       ++ py "Use is recommended with 100% risk coverage achieved. Reason: "
       ++ reason ++ py "."
  else py "Component " ++ part_number component
       ++ py " does not meet required specifications. "
       ++ py "Risk coverage remains at 0%. Issues: " ++ reason ++ py ".".

(** A difference: the field, the component's raw value, the spec's. *)
Definition difference : Type := (pystr * value * value)%type.

Record candidate : Type :=
  { cand_spec : dict; cand_differences : list difference }.

(** The body of [for k in component], [component[k]] being the value of
    the entry at hand. *)
Definition note_difference (spec : dict) (differences : list difference)
  (entry : pystr * value) : list difference :=
  let '(k, v) := entry in
  match lookup spec k with
  | Some w =>
      if negb (PyStr.eqb (normalize_units v) (normalize_units w))
      then differences ++ [(k, v, w)]
      else differences
  | None => differences
  end.

Definition spec_differences (component spec : dict) : list difference :=
  fold_left (note_difference spec) component [].

(** The body of [for spec in sae_specs]. *)
Definition note_candidate (component : dict) (candidates : list candidate)
  (spec : dict) : list candidate :=
  let differences := spec_differences component spec in
  if (List.length differences <=? 2)%nat
  then candidates
       ++ [{| cand_spec := spec; cand_differences := differences |}]
  else candidates.

Definition suggest_alternatives (component : dict) (sae_specs : list dict)
  : list candidate :=
  fold_left (note_candidate component) sae_specs [].

(** ** Bulk evaluator *)

Record EvaluationResult : Type :=
  { res_component : dict;
    res_match : bool;
    res_reason : pystr;
    res_summary : pystr;
    res_alternatives : list candidate;
    res_risk_reduction : Z }.

(** The closure [evaluate_row]; [row.to_dict()] is the row's record. *)
Definition evaluate_row (sae_specs : list dict) (user_inputs : dict)
  (row : dict) : result EvaluationResult :=
  let component_data := row in
  outcome <- match_component_to_spec component_data sae_specs user_inputs ;;
  let '(is_match, reason) := outcome in
  let summary := generate_component_summary component_data is_match reason in
  let alternatives :=
    if negb is_match
    then suggest_alternatives component_data sae_specs
    else [] in
  Ok {| res_component := component_data;
        res_match := is_match;
        res_reason := reason;
        res_summary := summary;
        res_alternatives := alternatives;
        res_risk_reduction := if negb is_match then 0 else 100 |}.

(** [list(executor.map(fn, jobs))] on a thread pool.  Every job gets a
    future when it is submitted; the workers complete the jobs in some
    order of their own, each storing its outcome in its future; the
    results are then read from the futures in submission order, and the
    first exception met is raised again.  Reading a future that is never
    completed would block: [None]. *)
Section Executor.

Variables A B : Type.
Variable fn : A -> result B.

Definition futures : Type := list (option (result B)).

Fixpoint set_future (i : nat) (r : result B) (fs : futures) : futures :=
  match fs, i with
  | [], _ => []
  | _ :: rest, O => Some r :: rest
  | f :: rest, S j => f :: set_future j r rest
  end.

Definition complete (jobs : list A) (fs : futures) (i : nat) : futures :=
  match nth_error jobs i with
  | Some a => set_future i (fn a) fs
  | None => fs
  end.

Definition run_workers (jobs : list A) (completion : list nat) : futures :=
  fold_left (complete jobs) completion (repeat None (List.length jobs)).

Fixpoint gather (fs : futures) : option (result (list B)) :=
  match fs with
  | [] => Some (Ok [])
  | None :: _ => None
  | Some (Raise e) :: _ => Some (Raise e)
  | Some (Ok b) :: rest =>
      match gather rest with
      | Some (Ok bs) => Some (Ok (b :: bs))
      | other => other
      end
  end.

Definition executor_map (jobs : list A) (completion : list nat)
  : option (result (list B)) :=
  gather (run_workers jobs completion).

End Executor.

(** [component_df] is the table as the list of its rows, top to bottom;
    [completion] is the order in which the pool happens to finish them. *)
Definition process_bulk_components (component_df : list dict)
  (sae_specs : list dict) (user_inputs : dict) (completion : list nat)
  : option (result (list EvaluationResult)) :=
  executor_map (evaluate_row sae_specs user_inputs) component_df completion.

(** ** Program store *)

Unset Elimination Schemes.

(** The Python data [json.dump] accepts and [json.load] builds. *)
Inductive pyval : Type :=
  | PyNone
  | PyBool (b : bool)
  | PyInt (z : Z)
  | PyFloat (x : float)
  | PyStr (s : pystr)
  | PyList (items : list pyval)
  | PyTuple (items : list pyval)
  | PyDict (entries : list (pystr * pyval)).

(** A JSON document, as [json] writes and reads it ([NaN] and the
    infinities included). *)
Inductive json : Type :=
  | JNull
  | JBool (b : bool)
  | JInt (z : Z)
  | JFloat (x : float)
  | JString (s : pystr)
  | JArray (items : list json)
  | JObject (members : list (pystr * json)).

Set Elimination Schemes.

(** The document [json.dump(data, f, indent=2)] writes: lists and tuples
    both become arrays. *)
Fixpoint json_dump (data : pyval) : json :=
  match data with
  | PyNone => JNull
  | PyBool b => JBool b
  | PyInt z => JInt z
  | PyFloat x => JFloat x
  | PyStr s => JString s
  | PyList items => JArray (map json_dump items)
  | PyTuple items => JArray (map json_dump items)
  | PyDict entries => JObject (map (fun kv => (fst kv, json_dump (snd kv))) entries)
  end.

(** The data [json.load(f)] builds from a document: arrays become lists. *)
Fixpoint json_load (doc : json) : pyval :=
  match doc with
  | JNull => PyNone
  | JBool b => PyBool b
  | JInt z => PyInt z
  | JFloat x => PyFloat x
  | JString s => PyStr s
  | JArray items => PyList (map json_load items)
  | JObject members => PyDict (map (fun kv => (fst kv, json_load (snd kv))) members)
  end.

(** *** Files and paths *)

(** [s.split(sep)] for a separator of one character. *)
Fixpoint split (sep : codepoint) (s : pystr) : list pystr :=
  match s with
  | [] => [[]]
  | c :: t =>
      if (c =? sep)%N then [] :: split sep t
      else match split sep t with
           | piece :: rest => (c :: piece) :: rest
           | [] => [[c]]
           end
  end.

(** A place of the file system: the names from the root down to it. *)
Definition location : Type := list pystr.

Fixpoint location_eqb (a b : location) : bool :=
  match a, b with
  | [], [] => true
  | x :: a', y :: b' => PyStr.eqb x y && location_eqb a' b'
  | _, _ => false
  end.

(** What a regular file holds: a JSON document, or a text that is none. *)
Inductive content : Type :=
  | Document (doc : json)
  | NotJson.

(** The file system as the store meets it: the working directory, the
    directories and the regular files there are, and the places where the
    system would refuse to create or to truncate a file (no permission, a
    name too long for it, no room left).  There are no links, and a file
    that is there can be read. *)
Record filesystem : Type := {
  cwd : location;
  is_dir : location -> bool;
  file : location -> option content;
  refused : location -> bool
}.

(** A path as [pathlib] holds it: from the root or from the working
    directory, and its parts. *)
Record path : Type := {
  anchored : bool;
  parts : list pystr
}.

(** The parts [pathlib] reads in a text: the pieces between slashes, the
    empty ones and the single dots dropped; [..] stays. *)
Definition parts_of (s : pystr) : list pystr :=
  filter (fun p => negb (is_nil p || PyStr.eqb p (py "."))) (split 47%N s).

(** [Path("local_program_data") / f"{program_name}.json"], the same path
    in [save_program_data] and in [load_program_data]; a text that starts
    with a slash replaces the folder it is joined to. *)
Definition program_path (program_name : pystr) : path :=
  let name := program_name ++ py ".json" in
  if starts_with (py "/") name
  then {| anchored := true; parts := parts_of name |}
  else {| anchored := false;
          parts := py "local_program_data" :: parts_of name |}.

(** The code points a file name can be made of: no NUL, and no surrogate
    but those that stand for a byte (U+DC80 to U+DCFF). *)
Definition encodable (c : codepoint) : bool :=
  (negb (c =? 0)
   && negb ((55296 <=? c) && (c <=? 57343)
            && negb ((56448 <=? c) && (c <=? 56575))))%N.

Definition encodable_path (p : path) : bool :=
  forallb (forallb encodable) (parts p).

(** The place reached from the directory [dir] through the name [p]. *)
Definition enter (dir : location) (p : pystr) : location :=
  if PyStr.eqb p (py "..") then removelast dir else dir ++ [p].

(** The place the names [ps] lead to from [dir]: every name is looked up
    in a directory, which must be there. *)
Fixpoint walk (fs : filesystem) (dir : location) (ps : list pystr)
  : result location :=
  match ps with
  | [] => Ok dir
  | p :: rest =>
      if is_dir fs dir then walk fs (enter dir p) rest
      else match file fs dir with
           | Some _ => Raise NotADirectoryError
           | None => Raise FileNotFoundError
           end
  end.

(** The place a path names. *)
Definition resolve (fs : filesystem) (p : path) : result location :=
  walk fs (if anchored p then [] else cwd fs) (parts p).

(** [open(path, "w")]: the place of the file, created or emptied. *)
Definition open_for_writing (fs : filesystem) (p : path) : result location :=
  if negb (encodable_path p) then Raise ValueError
  else
    place <- resolve fs p ;;
    if is_dir fs place then Raise IsADirectoryError
    else if refused fs place then Raise OSError
    else Ok place.

(** [open(path, "r")] and what is read. *)
Definition open_for_reading (fs : filesystem) (p : path) : result content :=
  if negb (encodable_path p) then Raise ValueError
  else
    place <- resolve fs p ;;
    if is_dir fs place then Raise IsADirectoryError
    else match file fs place with
         | Some c => Ok c
         | None => Raise FileNotFoundError
         end.

(** [path.exists()]: a path that cannot be encoded, or that leads through
    what is missing or is no directory, does not exist. *)
Definition path_exists (fs : filesystem) (p : path) : bool :=
  encodable_path p
  && match resolve fs p with
     | Ok place =>
         is_dir fs place
         || match file fs place with Some _ => true | None => false end
     | Raise _ => false
     end.

Definition write_file (fs : filesystem) (place : location) (doc : json)
  : filesystem :=
  {| cwd := cwd fs;
     is_dir := is_dir fs;
     file := fun l =>
               if location_eqb place l then Some (Document doc) else file fs l;
     refused := refused fs |}.

(** [save_program_data(program_name, data)]: the file system it leaves,
    or the exception of [open]. *)
Definition save_program_data (program_name : pystr) (data : pyval)
  (fs : filesystem) : result filesystem :=
  let path := program_path program_name in
  f <- open_for_writing fs path ;;
  Ok (write_file fs f (json_dump data)).

(** [json.load(f)] on what a file holds. *)
Definition load_content (c : content) : result pyval :=
  match c with
  | Document doc => Ok (json_load doc)
  | NotJson => Raise ValueError
  end.

Definition load_program_data (program_name : pystr) (fs : filesystem)
  : result pyval :=
  let path := program_path program_name in
  if negb (path_exists fs path) then Ok (PyDict [])
  else
    f <- open_for_reading fs path ;;
    load_content f.

(** [Path(folder).mkdir(parents=True, exist_ok=True)] for a folder of the
    working directory. *)
Definition mkdir (fs : filesystem) (folder : pystr) : result filesystem :=
  let place := cwd fs ++ [folder] in
  if is_dir fs place then Ok fs
  else match file fs place with
       | Some _ => Raise FileExistsError
       | None =>
           if refused fs place then Raise OSError
           else Ok {| cwd := cwd fs;
                      is_dir := fun l => location_eqb place l || is_dir fs l;
                      file := file fs;
                      refused := refused fs |}
       end.

Definition folders : list pystr :=
  [py "historical_documents"; py "risks_document"; py "target_document";
   py "outputs"; py "local_program_data"].

(** The loop that makes the folders when the module is loaded. *)
Definition ensure_folders (fs : filesystem) : result filesystem :=
  fold_left (fun state folder => fs' <- state ;; mkdir fs' folder)
    folders (Ok fs).

(** *** Results as Python data, and Python's [==] on it *)

Definition value_py (v : value) : pyval :=
  match v with
  | VStr s => PyStr s
  | VInt z => PyInt z
  | VFloat x => PyFloat x
  | VBool b => PyBool b
  | VNone => PyNone
  end.

Definition dict_py (d : dict) : pyval :=
  PyDict (map (fun kv => (fst kv, value_py (snd kv))) d).

Definition difference_py (d : difference) : pyval :=
  let '(k, v, w) := d in PyTuple [PyStr k; value_py v; value_py w].

Definition candidate_py (c : candidate) : pyval :=
  PyDict [(py "spec", dict_py (cand_spec c));
          (py "differences", PyList (map difference_py (cand_differences c)))].

Definition result_py (r : EvaluationResult) : pyval :=
  PyDict [(py "component", dict_py (res_component r));
          (py "match", PyBool (res_match r));
          (py "reason", PyStr (res_reason r));
          (py "summary", PyStr (res_summary r));
          (py "alternatives", PyList (map candidate_py (res_alternatives r)));
          (py "risk_reduction", PyInt (res_risk_reduction r))].

Definition results_py (results : list EvaluationResult) : pyval :=
  PyList (map result_py results).

(** Whether the float [x] is the integer [z]. *)
Definition float_is_int (x : float) (z : Z) : bool :=
  match x with
  | S754_zero _ => (z =? 0)%Z
  | S754_finite s m e =>
      if (0 <=? e)%Z
      then (z =? cond_Zopp s (Zpos m * 2 ^ e))%Z
      else (z * 2 ^ (- e) =? cond_Zopp s (Zpos m))%Z
  | _ => false
  end.

Fixpoint lookup_py (d : list (pystr * pyval)) (k : pystr) : option pyval :=
  match d with
  | [] => None
  | (k', v) :: d' => if PyStr.eqb k' k then Some v else lookup_py d' k
  end.

(** Equality of two sequences, item by item. *)
Fixpoint items_eq (A : Type) (eq : A -> A -> bool) (l m : list A) : bool :=
  match l, m with
  | [], [] => true
  | x :: l', y :: m' => eq x y && items_eq eq l' m'
  | _, _ => false
  end.

(** [a == b]; the items of a loaded document are fresh objects, so a NaN
    in it equals nothing. *)
Fixpoint py_eq (a b : pyval) : bool :=
  match a, b with
  | PyNone, PyNone => true
  | PyBool x, PyBool y => Bool.eqb x y
  | PyBool x, PyInt z | PyInt z, PyBool x => (z =? (if x then 1 else 0))%Z
  | PyBool x, PyFloat f | PyFloat f, PyBool x =>
      float_is_int f (if x then 1 else 0)
  | PyInt x, PyInt y => (x =? y)%Z
  | PyInt z, PyFloat f | PyFloat f, PyInt z => float_is_int f z
  | PyFloat x, PyFloat y => SFeqb x y
  | PyStr s, PyStr u => PyStr.eqb s u
  | PyList l, PyList m => items_eq py_eq l m
  | PyTuple l, PyTuple m => items_eq py_eq l m
  | PyDict d, PyDict e =>
      (List.length d =? List.length e)%nat
      && forallb (fun kv =>
                    match lookup_py e (fst kv) with
                    | Some w => py_eq (snd kv) w
                    | None => false
                    end) d
  | _, _ => false
  end.

(** [data] with every tuple turned into the list of its items. *)
Fixpoint listed (data : pyval) : pyval :=
  match data with
  | PyList items => PyList (map listed items)
  | PyTuple items => PyList (map listed items)
  | PyDict entries => PyDict (map (fun kv => (fst kv, listed (snd kv))) entries)
  | other => other
  end.

(** No tuple anywhere in [data]. *)
Fixpoint tuple_free (data : pyval) : bool :=
  match data with
  | PyTuple _ => false
  | PyList items => forallb tuple_free items
  | PyDict entries => forallb (fun kv => tuple_free (snd kv)) entries
  | _ => true
  end.

(** No NaN anywhere in [data]. *)
Fixpoint nan_free (data : pyval) : bool :=
  match data with
  | PyFloat x => negb (is_nan x)
  | PyList items | PyTuple items => forallb nan_free items
  | PyDict entries => forallb (fun kv => nan_free (snd kv)) entries
  | _ => true
  end.

Fixpoint distinct (keys : list pystr) : bool :=
  match keys with
  | [] => true
  | k :: rest => negb (existsb (PyStr.eqb k) rest) && distinct rest
  end.

(** Every dict of [data] has pairwise distinct keys, as a [dict] has. *)
Fixpoint keys_distinct (data : pyval) : bool :=
  match data with
  | PyList items | PyTuple items => forallb keys_distinct items
  | PyDict entries =>
      distinct (map fst entries)
      && forallb (fun kv => keys_distinct (snd kv)) entries
  | _ => true
  end.

(** A working directory with nothing in it, where nothing is refused. *)
Definition empty_directory : filesystem :=
  {| cwd := [];
     is_dir := fun l => location_eqb [] l;
     file := fun _ => None;
     refused := fun _ => false |}.

(** The working directory once the module is loaded there: the five
    folders, and no file. *)
Definition no_files : filesystem :=
  match ensure_folders empty_directory with
  | Ok fs => fs
  | Raise _ => empty_directory
  end.

(** What [load_program_data(name)] returns after
    [save_program_data(name, data)]. *)
Definition saved_then_loaded (program_name : pystr) (data : pyval)
  (fs : filesystem) : result pyval :=
  (fs' <- save_program_data program_name data fs ;;
   load_program_data program_name fs')%py.

(** Whether it is equal to [data]. *)
Definition round_trips (program_name : pystr) (data : pyval)
  (fs : filesystem) : result bool :=
  (loaded <- saved_then_loaded program_name data fs ;;
   Ok (py_eq loaded data))%py.

(** ** Vocabulary of the properties *)

(** *** Normalizer *)

(** The code points whose lower case is the letter [k]: [K] and the
    KELVIN SIGN. *)
Definition lowers_to_k (c : codepoint) : bool := ((c =? 75) || (c =? 8490))%N.

(** None of those code points stands in [x]; a value that is no string
    holds none. *)
Definition no_capital_k (x : value) : bool :=
  match x with
  | VStr s => forallb (fun c => negb (lowers_to_k c)) s
  | _ => true
  end.

(** A string or a number: an [int] that is no [bool], or a [float]. *)
Definition str_or_number (x : value) : bool :=
  match x with
  | VStr _ | VInt _ | VFloat _ => true
  | VBool _ | VNone => false
  end.

(** The characters [str] prints a number with. *)
Definition numeric_char (c : codepoint) : bool :=
  is_ascii_digit c || existsb (N.eqb c) (py "+-.einfa").

(** *** Tolerance comparator *)

(** [0.0] *)
Definition zero : float := S754_zero false.

(** The float is a zero, a finite number or an infinity of sign [s]
    (true for minus). *)
Definition has_sign (s : bool) (x : float) : bool :=
  match x with
  | S754_zero s' | S754_infinity s' | S754_finite s' _ _ => Bool.eqb s s'
  | S754_nan => false
  end.

(** *** Matcher *)

(** The normalized values the matcher compares under [key]. *)
Definition spec_val_of (spec : dict) (key : pystr) : pystr :=
  normalize_units (get spec key (VStr [])).

Definition comp_val_of (component_data : dict) (key : pystr) : pystr :=
  normalize_units (get component_data key (VStr [])).

(** The component has the very cell of the spec under [key]. *)
Definition identical_on (component_data spec : dict) (key : pystr) : Prop :=
  lookup component_data key = lookup spec key.

(** A numeric field, one whose two normalized values hold a digit, is
    within the default tolerance. *)
Definition tolerance_met (component_data spec : dict) (key : pystr) : Prop :=
  has_digit (comp_val_of component_data key) = true ->
  has_digit (spec_val_of spec key) = true ->
  within_tolerance (VStr (spec_val_of spec key))
    (VStr (comp_val_of component_data key)) default_tolerance = true.

(** The component is identical to the spec on all requirement fields and
    within tolerance on the numeric ones. *)
Definition identical_within_tolerance (component_data spec user_inputs : dict)
  : Prop :=
  Forall (fun entry => identical_on component_data spec (fst entry)
                       /\ tolerance_met component_data spec (fst entry))
    user_inputs.

(** The spec has the field, and with the value the user requires. *)
Definition answers_requirement (spec : dict) (entry : pystr * value) : Prop :=
  spec_val_of spec (fst entry) <> []
  /\ spec_val_of spec (fst entry) = normalize_units (snd entry).

(** No spec is accepted. *)
Definition none_accepted (component_data : dict) (sae_specs : list dict)
  (user_inputs : dict) : Prop :=
  Forall (fun spec => matched (scan_spec component_data spec user_inputs) = false)
    sae_specs.

(** Every failure reason recorded across all the specs, in order. *)
Definition all_reasons (component_data : dict) (sae_specs : list dict)
  (user_inputs : dict) : list pystr :=
  flat_map (fun spec => reasons (scan_spec component_data spec user_inputs))
    sae_specs.

(** *** Alternative suggester *)

(** The fields present in both the component and the spec whose
    normalized values differ, as (field, component value, spec value)
    triples in the component's field order. *)
Definition differing_fields (component spec : dict) : list difference :=
  flat_map
    (fun entry =>
       match lookup spec (fst entry) with
       | Some w =>
           if PyStr.eqb (normalize_units (snd entry)) (normalize_units w)
           then []
           else [(fst entry, snd entry, w)]
       | None => []
       end)
    component.

(** The threshold of the suggester, inclusive. *)
Definition near_miss (component spec : dict) : bool :=
  (List.length (differing_fields component spec) <=? 2)%nat.

(** *** Bulk evaluator *)

(** [[fn(a) for a in jobs]]: the outcomes in the order of the jobs, up
    to the first exception. *)
Fixpoint sequential_map (A B : Type) (fn : A -> result B) (jobs : list A)
  : result (list B) :=
  match jobs with
  | [] => Ok []
  | a :: rest =>
      b <- fn a ;;
      bs <- sequential_map fn rest ;;
      Ok (b :: bs)
  end.

(** Every submitted job is completed by some worker. *)
Definition all_complete (n : nat) (completion : list nat) : bool :=
  forallb (fun i => existsb (Nat.eqb i) completion) (seq 0 n).

(** A future is pending or holds the outcome of its own job. *)
Definition own_outcome (A B : Type) (fn : A -> result B) (a : A)
  (f : option (result B)) : Prop :=
  f = None \/ f = Some (fn a).

(** The invariant of an evaluation result. *)
Definition risk_matches_outcome (r : EvaluationResult) : Prop :=
  (res_risk_reduction r = 100%Z <-> res_match r = true)
  /\ (res_match r = false -> res_risk_reduction r = 0%Z).

(** No result suggests an alternative that differs in some field. *)
Definition no_differences (results : list EvaluationResult) : bool :=
  forallb (fun r =>
             forallb (fun c => is_nil (cand_differences c))
               (res_alternatives r))
    results.

(** ** Sample data *)

(** A record of string cells. *)
Definition record (cells : list (string * string)) : dict :=
  map (fun kv => (py (fst kv), VStr (py (snd kv)))) cells.

Local Open Scope string_scope.

Definition capacitor_part : dict := record [("type", "capacitor")].
Definition resistor_part : dict := record [("type", "resistor")].
Definition capacitor_spec : dict := record [("type", "capacitor")].
Definition inductor_spec : dict := record [("type", "inductor")].
Definition wants_resistor : dict := record [("type", "resistor")].

Definition resistor_100 : dict :=
  record [("part_number", "R-100"); ("type", "resistor"); ("value", "100");
          ("package", "smd")].
Definition resistor_100_tht : dict :=
  record [("part_number", "R-100"); ("type", "resistor"); ("value", "100");
          ("package", "tht")].
Definition resistor_spec : dict :=
  record [("id", "SAE-R1"); ("type", "resistor"); ("value", "100")].
Definition wants_resistor_100 : dict :=
  record [("type", "resistor"); ("value", "100")].

Definition smd_resistor_spec : dict :=
  record [("id", "SAE-R2"); ("type", "resistor"); ("package", "smd")].
Definition wants_smd_resistor : dict :=
  record [("type", "resistor"); ("package", "smd")].

Definition valueless_part : dict := record [("value", "100")].

(** The component and the specs of the suggester's example. *)
Definition smd_resistor : dict :=
  record [("type", "resistor"); ("value", "100"); ("package", "SMD")].
Definition tht_capacitor_spec : dict :=
  record [("type", "capacitor"); ("value", "100"); ("package", "THT")].
Definition tht_inductor_spec : dict :=
  record [("type", "inductor"); ("value", "220"); ("package", "THT")].

Local Close Scope string_scope.

(** A row of a table whose [value] column holds numbers. *)
Definition numeric_row : dict :=
  [(py "type", VStr (py "resistor"));
   (py "value", VFloat (of_decimal false 1030 (-1)))].

(** The results of one bulk run: a capacitor checked against the spec of
    an inductor, under the requirement of a resistor. *)
Definition sample_results : list EvaluationResult :=
  match process_bulk_components [capacitor_part] [inductor_spec]
          wants_resistor [0%nat] with
  | Some (Ok results) => results
  | _ => []
  end.

(** A row with an empty cell, which the table reader gives as a NaN, and
    the results of evaluating it with no requirement set. *)
Definition blank_value_part : dict := [(py "value", VFloat S754_nan)].

Definition blank_value_results : list EvaluationResult :=
  match process_bulk_components [blank_value_part] [inductor_spec] []
          [0%nat] with
  | Some (Ok results) => results
  | _ => []
  end.

(** The results of a run in which the row matches. *)
Definition matching_results : list EvaluationResult :=
  match process_bulk_components [resistor_100] [resistor_spec]
          wants_resistor_100 [0%nat] with
  | Some (Ok results) => results
  | _ => []
  end.

(** The file system once those results are saved as [demo_program] in
    the working directory [no_files]. *)
Definition demo_saved : filesystem :=
  write_file no_files [py "local_program_data"; py "demo_program.json"]
    (json_dump (results_py matching_results)).

(** ** Vocabulary of the further properties *)

(** What the three substitutions of [normalize_units] make of one code
    point. *)
Definition substitute (c : codepoint) : pystr :=
  (if c =? 181 then py "u"
   else if c =? 937 then py "ohm"
   else if c =? 107 then py "000"
   else [c])%N.


(** A code point of Basic Latin. *)
Definition is_ascii (c : codepoint) : bool := (c <? 128)%N.

(** A string of white space only, the empty one included. *)
Definition blank (s : pystr) : bool := forallb is_space s.

(** A code point whose case [normalize_units] tells apart: [K] and the
    KELVIN SIGN, lowered after [k] is expanded, and capital omega,
    replaced where the small one is kept. *)
Definition case_sensitive (c : codepoint) : bool :=
  lowers_to_k c || (c =? 937)%N.

(** The reasons one requirement adds for one spec: for a field missing or
    blank in the component or in the spec, that alone; otherwise a
    mismatch of the spec with the requirement, then a value out of
    tolerance. *)
Definition field_reasons (component_data spec : dict) (entry : pystr * value)
  : list pystr :=
  let key := fst entry in
  let spec_val := spec_val_of spec key in
  let comp_val := comp_val_of component_data key in
  let user_val := normalize_units (snd entry) in
  if is_nil comp_val || is_nil spec_val then [missing_key key]
  else
    (if PyStr.eqb spec_val user_val then []
     else [mismatch key user_val spec_val])
    ++ (if has_digit comp_val && has_digit spec_val
           && negb (within_tolerance (VStr spec_val) (VStr comp_val)
                      default_tolerance)
        then [out_of_tolerance key comp_val spec_val]
        else []).

(** The spec is accepted for the component. *)
Definition accepted (component_data user_inputs spec : dict) : bool :=
  matched (scan_spec component_data spec user_inputs).

(** [entry[key]] on loaded data, where it is defined. *)
Definition getitem (entry : pyval) (key : pystr) : option pyval :=
  match entry with
  | PyDict entries => lookup_py entries key
  | _ => None
  end.

(** What the history page reads of a loaded entry agrees with the result
    that was saved. *)
Definition shows (r : EvaluationResult) (entry : pyval) : Prop :=
  getitem entry (py "summary") = Some (PyStr (res_summary r))
  /\ getitem entry (py "match") = Some (PyBool (res_match r))
  /\ getitem entry (py "reason") = Some (PyStr (res_reason r))
  /\ getitem entry (py "risk_reduction") = Some (PyInt (res_risk_reduction r))
  /\ getitem entry (py "component") = Some (dict_py (res_component r))
  /\ exists alternatives,
       getitem entry (py "alternatives") = Some (PyList alternatives)
       /\ List.length alternatives = List.length (res_alternatives r).

(** ** Requirement form and file upload *)

(** [d[k] = v] *)
Fixpoint setitem (d : dict) (k : pystr) (v : value) : dict :=
  match d with
  | [] => [(k, v)]
  | (k', v') :: d' =>
      if PyStr.eqb k' k then (k, v) :: d' else (k', v') :: setitem d' k v
  end.

(** The fields of the requirement form, in the order they are read. *)
Definition input_keys : list pystr :=
  [py "type"; py "value"; py "tolerance"; py "voltage"; py "package";
   py "temp_rating"].

(** The body of the loop over the fields; [text_input key] is the text
    typed in the field of [key]. *)
Definition read_requirement (text_input : pystr -> pystr) (user_inputs : dict)
  (key : pystr) : dict :=
  let val := text_input key in
  if negb (is_nil (strip val))
  then setitem user_inputs key (VStr (strip val))
  else user_inputs.

(** The mapping [user_inputs] once the form is read. *)
Definition sidebar_inputs (text_input : pystr -> pystr) : dict :=
  fold_left (read_requirement text_input) input_keys [].

(** [name.split('.')[-1].lower()] *)
Definition extension (name : pystr) : pystr :=
  lower (last (split 46%N name) []).

(** What [parse_uploaded_file] returns: a table, as the list of its
    rows, the data of a JSON document, or a text. *)
Inductive parsed : Type :=
  | Frame (rows : list dict)
  | Data (data : pyval)
  | Text (text : pystr).

(** The file readers are those of the libraries: [pd.read_csv],
    [pd.read_excel], [json.load], and the paragraphs of
    [docx.Document]. *)
Section Upload.

Variable uploaded : Type.
Variable file_name : uploaded -> pystr.
Variables read_csv read_excel : uploaded -> result (list dict).
Variable load_json : uploaded -> result pyval.
Variable paragraphs : uploaded -> result (list pystr).

Definition parse_uploaded_file (file : uploaded) : result parsed :=
  let ext := extension (file_name file) in
  if PyStr.eqb ext (py "csv")
  then rows <- read_csv file ;; Ok (Frame rows)
  else if existsb (PyStr.eqb ext) [py "xls"; py "xlsx"]
  then rows <- read_excel file ;; Ok (Frame rows)
  else if PyStr.eqb ext (py "json")
  then data <- load_json file ;; Ok (Data data)
  else if PyStr.eqb ext (py "docx")
  then texts <- paragraphs file ;; Ok (Text (join [10%N] texts))
  else Ok (Text (py "Unsupported file format")).

End Upload.

(** The trimmed text of a field that is not blank, under its key. *)
Definition requirement_of (text_input : pystr -> pystr) (key : pystr) : dict :=
  if blank (text_input key) then []
  else [(key, VStr (strip (text_input key)))].

(** * Properties *)

(** ** Strings *)

Lemma eqb_eq (a b : pystr) : PyStr.eqb a b = true <-> a = b.
Proof.
  revert b; induction a as [|x a IH]; intros [|y b]; simpl;
    try (split; [discriminate | intros H; inversion H]); [tauto|].
  rewrite andb_true_iff, N.eqb_eq, IH.
  split; [intros [-> ->]; reflexivity | intros H; inversion H; auto].
Qed.

Lemma eqb_refl (a : pystr) : PyStr.eqb a a = true.
Proof. apply eqb_eq; reflexivity. Qed.

Lemma eqb_neq (a b : pystr) : PyStr.eqb a b = false <-> a <> b.
Proof.
  rewrite <- eqb_eq. destruct (PyStr.eqb a b); split; congruence.
Qed.

Lemma is_nil_false (A : Type) (l : list A) : is_nil l = false <-> l <> [].
Proof. destruct l; simpl; split; congruence. Qed.

(** ** Worked examples *)

Example normalize_units_examples :
  normalize_units (VStr (py " 4k7 ")) = py "40007"
  /\ normalize_units (VStr ([49; 48; 32; 181] ++ py "F")%N) = py "10 uf"
  /\ normalize_units (VStr ([49; 48; 48; 937]%N)) = py "100ohm"
  /\ normalize_units (VStr (py "Package")) = py "pac000age"
  /\ normalize_units (VInt (-15)) = py "-15"
  /\ normalize_units (VFloat (of_decimal false 1030 (-1))) = py "103.0".
Proof. repeat split; vm_compute; reflexivity. Qed.

Example float_literals :
  of_str (py "0.05") = Ok default_tolerance
  /\ of_str (py " 1_000.5e-1 ") = of_str (py "100.05")
  /\ of_str (py "4k7") = Raise ValueError
  /\ of_str (py "") = Raise ValueError
  /\ repr default_tolerance = py "0.05"
  /\ repr (of_decimal false 1 16) = py "1e+16"
  /\ repr (of_decimal false 1 (-5)) = py "1e-05"
  /\ repr (of_decimal true 25 (-1)) = py "-2.5".
Proof. repeat split; vm_compute; reflexivity. Qed.

Example within_tolerance_examples :
  within_tolerance (VInt 100) (VInt 104) default_tolerance = true
  /\ within_tolerance (VInt 100) (VInt 106) default_tolerance = false
  /\ within_tolerance (VInt 100) (VInt 95) default_tolerance = true
  /\ within_tolerance (VStr (py "100")) (VStr (py "abc")) default_tolerance
     = false
  /\ within_tolerance_try (VStr (py "0")) (VStr (py "0")) default_tolerance
     = Raise ZeroDivisionError.
Proof. repeat split; vm_compute; reflexivity. Qed.

Example match_component_to_spec_examples :
  match_component_to_spec resistor_100 [capacitor_spec; resistor_spec]
    wants_resistor_100
  = Ok (true, py "Component matches SAE specification: SAE-R1")
  /\ match_component_to_spec numeric_row [resistor_spec] wants_resistor_100
     = Ok (true, py "Component matches SAE specification: SAE-R1")
  /\ match_component_to_spec valueless_part [resistor_spec] wants_resistor
     = Ok (false,
           py "No SAE spec match found. Issues: Missing key: type in component or spec.")
  /\ match_component_to_spec resistor_100_tht [smd_resistor_spec]
       wants_smd_resistor
     = Ok (true, py "Component matches SAE specification: SAE-R2").
Proof. repeat split; vm_compute; reflexivity. Qed.

Example suggest_alternatives_example :
  suggest_alternatives smd_resistor [tht_inductor_spec; tht_capacitor_spec]
  = [{| cand_spec := tht_capacitor_spec;
        cand_differences :=
          [(py "type", VStr (py "resistor"), VStr (py "capacitor"));
           (py "package", VStr (py "SMD"), VStr (py "THT"))] |}].
Proof. vm_compute. reflexivity. Qed.

Example process_bulk_components_example :
  option_map
    (fun outcome =>
       match outcome with
       | Ok results => Ok (map res_summary results)
       | Raise e => Raise e
       end)
    (process_bulk_components [capacitor_part; resistor_100] [resistor_spec]
       wants_resistor_100 [1; 0]%nat)
  = Some (Ok
      [py "Component N/A does not meet required specifications. Risk coverage remains at 0%. Issues: No SAE spec match found. Issues: Missing key: value in component or spec..";
       py "Component R-100 meets all program and SAE specifications. Use is recommended with 100% risk coverage achieved. Reason: Component matches SAE specification: SAE-R1."]).
Proof. vm_compute. reflexivity. Qed.

(** ** Matcher *)

Section Matcher.

Variables component_data user_inputs : dict.

(** A failed check never sets [match] back to true. *)
Lemma check_key_unmatched spec st entry :
  matched st = false ->
  matched (check_key component_data spec st entry) = false.
Proof.
  intros H. unfold check_key. destruct entry as [key required].
  repeat match goal with
         | |- context [if ?b then _ else _] => destruct b
         end; simpl; auto.
Qed.

Lemma fold_check_key_unmatched spec entries st :
  matched st = false ->
  matched (fold_left (check_key component_data spec) entries st) = false.
Proof.
  revert st; induction entries as [|entry entries IH]; intros st H; simpl.
  - exact H.
  - apply IH, check_key_unmatched, H.
Qed.

(** Once a name is bound the scan of the specs returns. *)
Lemma scan_specs_bound sae_specs rs :
  exists outcome,
    scan_specs component_data sae_specs user_inputs (Some rs) = Ok outcome.
Proof.
  revert rs; induction sae_specs as [|spec rest IH]; intros rs; simpl.
  - eexists; reflexivity.
  - destruct (matched _); [eexists; reflexivity | apply IH].
Qed.

Lemma match_component_to_spec_returns sae_specs :
  sae_specs <> [] ->
  exists outcome,
    match_component_to_spec component_data sae_specs user_inputs = Ok outcome.
Proof.
  destruct sae_specs as [|spec rest]; [congruence | intros _].
  unfold match_component_to_spec; simpl.
  destruct (matched _); [eexists; reflexivity | apply scan_specs_bound].
Qed.

Lemma match_component_to_spec_empty :
  match_component_to_spec component_data [] user_inputs
  = Raise UnboundLocalError.
Proof. reflexivity. Qed.

End Matcher.

Section MatcherAcceptance.

Variable component_data : dict.

Lemma identical_get spec key default :
  identical_on component_data spec key ->
  get component_data key default = get spec key default.
Proof. unfold identical_on, get. intros ->. reflexivity. Qed.

(** A requirement the spec answers and the component meets leaves the
    locals of the pass as they are. *)
Lemma check_key_passes spec st entry :
  identical_on component_data spec (fst entry) ->
  tolerance_met component_data spec (fst entry) ->
  answers_requirement spec entry ->
  check_key component_data spec st entry = st.
Proof.
  destruct entry as [key required].
  unfold answers_requirement, tolerance_met, comp_val_of, spec_val_of.
  simpl. intros Hid Htol [Hpresent Hagree]. unfold check_key.
  rewrite (identical_get _ Hid) in *.
  apply is_nil_false in Hpresent. rewrite Hpresent; simpl.
  rewrite <- Hagree, eqb_refl; simpl.
  destruct (has_digit _) eqn:Hd; simpl; [|reflexivity].
  rewrite Htol by reflexivity. reflexivity.
Qed.

Lemma fold_check_key_passes spec entries st :
  identical_within_tolerance component_data spec entries ->
  Forall (answers_requirement spec) entries ->
  fold_left (check_key component_data spec) entries st = st.
Proof.
  unfold identical_within_tolerance.
  induction entries as [|entry entries IH]; intros Hcomp Hspec; simpl.
  - reflexivity.
  - inversion Hcomp as [|? ? [Hid Htol] Hcomp']; subst.
    inversion Hspec as [|? ? Hans Hspec']; subst.
    rewrite check_key_passes by assumption. apply IH; assumption.
Qed.

Lemma scan_spec_accepts spec user_inputs :
  identical_within_tolerance component_data spec user_inputs ->
  Forall (answers_requirement spec) user_inputs ->
  matched (scan_spec component_data spec user_inputs) = true.
Proof.
  intros Hcomp Hspec. unfold scan_spec.
  rewrite fold_check_key_passes by assumption. reflexivity.
Qed.

Lemma scan_specs_accepts sae_specs user_inputs spec bound :
  In spec sae_specs ->
  matched (scan_spec component_data spec user_inputs) = true ->
  exists message,
    scan_specs component_data sae_specs user_inputs bound
    = Ok (true, message).
Proof.
  revert bound; induction sae_specs as [|spec0 rest IH];
    intros bound Hin Hacc; simpl.
  - destruct Hin.
  - destruct (matched (scan_spec component_data spec0 user_inputs)) eqn:E.
    + eexists; reflexivity.
    + destruct Hin as [-> | Hin]; [congruence | apply IH; assumption].
Qed.

End MatcherAcceptance.

(** C1, as stated, fails: a component identical to a spec on the one
    requirement field is rejected when that spec does not carry the value
    the user requires. *)
Lemma identical_spec_rejected :
  In capacitor_spec [capacitor_spec]
  /\ identical_within_tolerance capacitor_part capacitor_spec wants_resistor
  /\ match_component_to_spec capacitor_part [capacitor_spec] wants_resistor
     = Ok (false,
           py "No SAE spec match found. Issues: Mismatch: user required type = resistor, SAE has capacitor").
Proof.
  split; [left; reflexivity|]. split.
  - constructor; [|constructor]. split; [reflexivity|].
    intros H; vm_compute in H; discriminate.
  - vm_compute. reflexivity.
Qed.

(** C1 (amended): for every user requirement mapping, spec sequence and
    component record that is identical to some spec on all requirement
    fields and within tolerance on the numeric ones, where that spec has
    every requirement field, non-empty once normalized and equal to the
    normalized value the user requires, [match_component_to_spec] returns
    match = true. *)
Theorem match_component_to_spec_accepts
  (component_data : dict) (sae_specs : list dict) (user_inputs spec : dict) :
  In spec sae_specs ->
  identical_within_tolerance component_data spec user_inputs ->
  Forall (answers_requirement spec) user_inputs ->
  exists message,
    match_component_to_spec component_data sae_specs user_inputs
    = Ok (true, message).
Proof.
  intros Hin Hcomp Hspec.
  apply scan_specs_accepts with (spec := spec); [assumption|].
  apply scan_spec_accepts; assumption.
Qed.

Lemma match_component_to_spec_accepts_witness :
  In resistor_spec [capacitor_spec; resistor_spec]
  /\ identical_within_tolerance resistor_100 resistor_spec wants_resistor_100
  /\ Forall (answers_requirement resistor_spec) wants_resistor_100
  /\ exists message,
       match_component_to_spec resistor_100 [capacitor_spec; resistor_spec]
         wants_resistor_100 = Ok (true, message).
Proof.
  assert (Hin : In resistor_spec [capacitor_spec; resistor_spec])
    by (right; left; reflexivity).
  assert (Hcomp : identical_within_tolerance resistor_100 resistor_spec
                    wants_resistor_100).
  { repeat apply Forall_cons; try apply Forall_nil;
      (split; [reflexivity | vm_compute; auto]). }
  assert (Hspec : Forall (answers_requirement resistor_spec) wants_resistor_100).
  { repeat apply Forall_cons; try apply Forall_nil;
      (split; [vm_compute; discriminate | vm_compute; reflexivity]). }
  split; [exact Hin | split; [exact Hcomp | split; [exact Hspec|]]].
  exact (@match_component_to_spec_accepts _ _ _ _ Hin Hcomp Hspec).
Defined.

Section NoMatch.

Variables component_data user_inputs : dict.

Lemma scan_specs_none_accepted sae_specs bound :
  none_accepted component_data sae_specs user_inputs ->
  scan_specs component_data sae_specs user_inputs bound
  = match sae_specs, bound with
    | [], None => Raise UnboundLocalError
    | [], Some rs => Ok (false, no_match_message rs)
    | _ :: _, _ =>
        Ok (false,
            no_match_message
              (reasons (scan_spec component_data (last sae_specs [])
                          user_inputs)))
    end.
Proof.
  revert bound; induction sae_specs as [|spec rest IH]; intros bound Hnone.
  - destruct bound; reflexivity.
  - inversion Hnone as [|? ? Hrej Hrest]; subst.
    cbn [scan_specs]. rewrite Hrej, (IH _ Hrest).
    destruct rest; reflexivity.
Qed.

End NoMatch.

(** C2, as stated, fails: with two rejected specs the reason carries the
    failure of the second alone, with or without the fixed opening words. *)
Lemma reasons_of_earlier_specs_dropped :
  none_accepted resistor_part [capacitor_spec; inductor_spec] wants_resistor
  /\ match_component_to_spec resistor_part [capacitor_spec; inductor_spec]
       wants_resistor
     = Ok (false,
           py "No SAE spec match found. Issues: Mismatch: user required type = resistor, SAE has inductor")
  /\ all_reasons resistor_part [capacitor_spec; inductor_spec] wants_resistor
     = [py "Mismatch: user required type = resistor, SAE has capacitor";
        py "Mismatch: user required type = resistor, SAE has inductor"]
  /\ match_component_to_spec resistor_part [capacitor_spec; inductor_spec]
       wants_resistor
     <> Ok (false,
            no_match_message
              (all_reasons resistor_part [capacitor_spec; inductor_spec]
                 wants_resistor))
  /\ match_component_to_spec resistor_part [capacitor_spec; inductor_spec]
       wants_resistor
     <> Ok (false,
            join (py "; ")
              (all_reasons resistor_part [capacitor_spec; inductor_spec]
                 wants_resistor)).
Proof.
  split; [|split; [|split; [|split]]].
  - repeat constructor.
  - vm_compute. reflexivity.
  - vm_compute. reflexivity.
  - vm_compute. discriminate.
  - vm_compute. discriminate.
Qed.

(** C2 (amended): whenever the spec sequence is not empty and no spec is
    accepted, [match_component_to_spec] returns match = false with the
    reason "No SAE spec match found. Issues: " followed by the
    semicolon-joined failure reasons recorded for the last spec
    examined. *)
Theorem no_match_reports_last_spec
  (component_data : dict) (sae_specs : list dict) (user_inputs : dict) :
  sae_specs <> [] ->
  none_accepted component_data sae_specs user_inputs ->
  match_component_to_spec component_data sae_specs user_inputs
  = Ok (false,
        py "No SAE spec match found. Issues: "
        ++ join (py "; ")
             (reasons (scan_spec component_data (last sae_specs [])
                         user_inputs))).
Proof.
  intros Hne Hnone. unfold match_component_to_spec.
  rewrite scan_specs_none_accepted by assumption.
  destruct sae_specs; [congruence | reflexivity].
Qed.

Lemma no_match_reports_last_spec_witness :
  [capacitor_spec; inductor_spec] <> []
  /\ none_accepted resistor_part [capacitor_spec; inductor_spec] wants_resistor
  /\ match_component_to_spec resistor_part [capacitor_spec; inductor_spec]
       wants_resistor
     = Ok (false,
           py "No SAE spec match found. Issues: "
           ++ join (py "; ")
                (reasons (scan_spec resistor_part
                            (last [capacitor_spec; inductor_spec] [])
                            wants_resistor))).
Proof.
  assert (Hne : [capacitor_spec; inductor_spec] <> []) by discriminate.
  assert (Hnone : none_accepted resistor_part [capacitor_spec; inductor_spec]
                    wants_resistor) by (repeat constructor).
  split; [exact Hne | split; [exact Hnone|]].
  exact (@no_match_reports_last_spec _ _ _ Hne Hnone).
Defined.

Section ComponentValueUnused.

Variables component1 component2 : dict.
Variable key : pystr.

Hypothesis same_elsewhere :
  forall k, k <> key -> lookup component1 k = lookup component2 k.
Hypothesis present1 : comp_val_of component1 key <> [].
Hypothesis no_digit1 : has_digit (comp_val_of component1 key) = false.
Hypothesis present2 : comp_val_of component2 key <> [].
Hypothesis no_digit2 : has_digit (comp_val_of component2 key) = false.

Lemma check_key_same spec st entry :
  check_key component1 spec st entry = check_key component2 spec st entry.
Proof.
  destruct entry as [k required]. unfold check_key.
  destruct (PyStr.eqb k key) eqn:E.
  - apply eqb_eq in E; subst k.
    apply is_nil_false in present1, present2.
    unfold comp_val_of in *.
    rewrite present1, present2, no_digit1, no_digit2. reflexivity.
  - apply eqb_neq in E. unfold get.
    rewrite (same_elsewhere E). reflexivity.
Qed.

Lemma scan_spec_same spec user_inputs :
  scan_spec component1 spec user_inputs
  = scan_spec component2 spec user_inputs.
Proof.
  unfold scan_spec. generalize {| matched := true; reasons := [] |}.
  induction user_inputs as [|entry entries IH]; intros st; simpl.
  - reflexivity.
  - rewrite check_key_same. apply IH.
Qed.

Lemma scan_specs_same sae_specs user_inputs bound :
  scan_specs component1 sae_specs user_inputs bound
  = scan_specs component2 sae_specs user_inputs bound.
Proof.
  revert bound; induction sae_specs as [|spec rest IH]; intros bound; simpl.
  - reflexivity.
  - rewrite scan_spec_same. destruct (matched _); [reflexivity | apply IH].
Qed.

End ComponentValueUnused.

(** C4: for every user requirement mapping, spec sequence and pair of
    component records that differ only in the value of one field, where
    both of those values normalize to non-empty strings containing no
    digit, [match_component_to_spec] has the same outcome, the same
    (match, reason) pair, for both components. *)
Theorem component_text_value_unused
  (user_inputs : dict) (sae_specs : list dict) (component1 component2 : dict)
  (key : pystr) :
  (forall k, k <> key -> lookup component1 k = lookup component2 k) ->
  comp_val_of component1 key <> [] ->
  has_digit (comp_val_of component1 key) = false ->
  comp_val_of component2 key <> [] ->
  has_digit (comp_val_of component2 key) = false ->
  match_component_to_spec component1 sae_specs user_inputs
  = match_component_to_spec component2 sae_specs user_inputs.
Proof.
  intros. unfold match_component_to_spec.
  apply scan_specs_same with (key := key); assumption.
Qed.

Lemma same_but_package k :
  k <> py "package" -> lookup resistor_100 k = lookup resistor_100_tht k.
Proof.
  intros Hk. unfold resistor_100, resistor_100_tht, record. cbn [map lookup fst snd].
  repeat match goal with
         | |- context [PyStr.eqb ?a k] =>
             destruct (PyStr.eqb a k) eqn:?; [reflexivity|]
         end.
  destruct (PyStr.eqb (py "package") k) eqn:E; [|reflexivity].
  apply eqb_eq in E. congruence.
Qed.

Lemma component_text_value_unused_witness :
  comp_val_of resistor_100 (py "package") = py "smd"
  /\ comp_val_of resistor_100_tht (py "package") = py "tht"
  /\ match_component_to_spec resistor_100 [smd_resistor_spec]
       wants_smd_resistor
     = match_component_to_spec resistor_100_tht [smd_resistor_spec]
         wants_smd_resistor.
Proof.
  split; [vm_compute; reflexivity | split; [vm_compute; reflexivity|]].
  apply (@component_text_value_unused _ _ _ _ (py "package") same_but_package).
  - vm_compute; discriminate.
  - vm_compute; reflexivity.
  - vm_compute; discriminate.
  - vm_compute; reflexivity.
Defined.

(** ** Alternative suggester *)

Lemma fold_note_difference spec entries acc :
  fold_left (note_difference spec) entries acc
  = acc ++ differing_fields entries spec.
Proof.
  revert acc; induction entries as [|[k v] entries IH]; intros acc.
  - simpl. rewrite app_nil_r. reflexivity.
  - cbn [fold_left differing_fields flat_map fst snd]. rewrite IH.
    unfold note_difference.
    destruct (lookup spec k) as [w|]; [|reflexivity].
    destruct (PyStr.eqb _ _); simpl; [reflexivity|].
    rewrite <- app_assoc. reflexivity.
Qed.

Lemma spec_differences_eq component spec :
  spec_differences component spec = differing_fields component spec.
Proof. unfold spec_differences. apply fold_note_difference. Qed.

Lemma fold_note_candidate component sae_specs acc :
  fold_left (note_candidate component) sae_specs acc
  = acc
    ++ map (fun spec =>
              {| cand_spec := spec;
                 cand_differences := differing_fields component spec |})
        (filter (near_miss component) sae_specs).
Proof.
  revert acc; induction sae_specs as [|spec rest IH]; intros acc.
  - simpl. rewrite app_nil_r. reflexivity.
  - cbn [fold_left filter]. rewrite IH. unfold note_candidate, near_miss.
    rewrite spec_differences_eq.
    destruct (List.length _ <=? 2)%nat; [|reflexivity].
    rewrite <- app_assoc. reflexivity.
Qed.

(** C7: [suggest_alternatives] returns, in spec order, exactly one
    candidate for each spec whose fields present in both the component and
    that spec differ, after normalization, in at most two fields, carrying
    the (field, raw component value, raw spec value) triples; no candidate
    has three or more differences. *)
Theorem suggest_alternatives_near_misses
  (component : dict) (sae_specs : list dict) :
  suggest_alternatives component sae_specs
  = map (fun spec =>
           {| cand_spec := spec;
              cand_differences := differing_fields component spec |})
      (filter (fun spec =>
                 (List.length (differing_fields component spec) <=? 2)%nat)
         sae_specs)
  /\ Forall (fun c => (List.length (cand_differences c) <= 2)%nat)
       (suggest_alternatives component sae_specs).
Proof.
  assert (E : suggest_alternatives component sae_specs
              = map (fun spec =>
                       {| cand_spec := spec;
                          cand_differences := differing_fields component spec |})
                  (filter (near_miss component) sae_specs)).
  { unfold suggest_alternatives. rewrite fold_note_candidate. reflexivity. }
  split; [exact E|].
  rewrite E. apply Forall_forall. intros c Hc.
  apply in_map_iff in Hc. destruct Hc as (spec & <- & Hspec).
  apply filter_In in Hspec. destruct Hspec as [_ Hnear].
  apply Nat.leb_le in Hnear. exact Hnear.
Qed.

(** ** Thread pool *)

Section ExecutorFacts.

Variables A B : Type.
Variable fn : A -> result B.

Lemma set_future_length i r (fs : futures B) :
  List.length (set_future i r fs) = List.length fs.
Proof.
  revert i; induction fs as [|f fs IH]; intros [|i]; simpl; auto.
Qed.

Lemma set_future_same i r (fs : futures B) :
  (i < List.length fs)%nat -> nth_error (set_future i r fs) i = Some (Some r).
Proof.
  revert i; induction fs as [|f fs IH]; intros [|i] Hi; simpl in *;
    try lia; [reflexivity | apply IH; lia].
Qed.

Lemma set_future_other i j r (fs : futures B) :
  i <> j -> nth_error (set_future i r fs) j = nth_error fs j.
Proof.
  revert i j; induction fs as [|f fs IH]; intros [|i] [|j] Hij; simpl;
    try reflexivity; try congruence.
  apply IH. congruence.
Qed.

Lemma complete_length jobs fs i :
  List.length (complete fn jobs fs i) = List.length fs.
Proof.
  unfold complete. destruct (nth_error jobs i); [apply set_future_length|].
  reflexivity.
Qed.

Lemma fold_complete_length jobs completion fs :
  List.length (fold_left (complete fn jobs) completion fs) = List.length fs.
Proof.
  revert fs; induction completion as [|i rest IH]; intros fs; simpl.
  - reflexivity.
  - rewrite IH. apply complete_length.
Qed.

(** A completed future keeps its outcome whatever completes later. *)
Lemma fold_complete_keeps jobs completion fs i a :
  nth_error jobs i = Some a ->
  nth_error fs i = Some (Some (fn a)) ->
  nth_error (fold_left (complete fn jobs) completion fs) i
  = Some (Some (fn a)).
Proof.
  intros Ha. revert fs; induction completion as [|j rest IH]; intros fs Hf.
  - exact Hf.
  - simpl. apply IH. unfold complete.
    destruct (nth_error jobs j) as [a'|] eqn:Ej; [|exact Hf].
    destruct (Nat.eq_dec j i) as [->|Hji].
    + rewrite Ha in Ej. injection Ej as <-.
      apply set_future_same. apply nth_error_Some. congruence.
    + rewrite set_future_other by exact Hji. exact Hf.
Qed.

Lemma fold_complete_done jobs completion fs i a :
  List.length fs = List.length jobs ->
  nth_error jobs i = Some a ->
  In i completion ->
  nth_error (fold_left (complete fn jobs) completion fs) i
  = Some (Some (fn a)).
Proof.
  intros Hlen Ha. revert fs Hlen.
  induction completion as [|j rest IH]; intros fs Hlen Hin.
  - destruct Hin.
  - simpl. destruct (Nat.eq_dec j i) as [->|Hji].
    + apply fold_complete_keeps; [exact Ha|].
      unfold complete. rewrite Ha. apply set_future_same.
      rewrite Hlen. apply nth_error_Some. congruence.
    + apply IH; [rewrite complete_length; exact Hlen|].
      destruct Hin; [congruence | assumption].
Qed.

Lemma all_complete_In n completion i :
  all_complete n completion = true -> (i < n)%nat -> In i completion.
Proof.
  unfold all_complete. rewrite forallb_forall. intros H Hi.
  specialize (H i). rewrite in_seq in H.
  assert (Hex : existsb (Nat.eqb i) completion = true) by (apply H; lia).
  apply existsb_exists in Hex. destruct Hex as (j & Hj & Eij).
  apply Nat.eqb_eq in Eij. subst j. exact Hj.
Qed.

(** When every job completes, each future holds its job's outcome. *)
Lemma run_workers_all_complete jobs completion :
  all_complete (List.length jobs) completion = true ->
  run_workers fn jobs completion = map (fun a => Some (fn a)) jobs.
Proof.
  intros Hall. apply nth_error_ext. intros i. unfold run_workers.
  rewrite nth_error_map.
  destruct (nth_error jobs i) as [a|] eqn:Ha; simpl.
  - apply fold_complete_done; [apply repeat_length | exact Ha|].
    apply all_complete_In with (n := List.length jobs); [exact Hall|].
    apply nth_error_Some. congruence.
  - apply nth_error_None. rewrite fold_complete_length, repeat_length.
    apply nth_error_None. exact Ha.
Qed.

Lemma gather_completed jobs :
  gather (map (fun a => Some (fn a)) jobs) = Some (sequential_map fn jobs).
Proof.
  induction jobs as [|a rest IH]; simpl; [reflexivity|].
  destruct (fn a) as [b|e]; simpl; [|reflexivity].
  rewrite IH. destruct (sequential_map fn rest); reflexivity.
Qed.

(** The pool returns what the sequential loop returns, whatever the
    order in which the workers finish. *)
Lemma executor_map_sequential jobs completion :
  all_complete (List.length jobs) completion = true ->
  executor_map fn jobs completion = Some (sequential_map fn jobs).
Proof.
  intros Hall. unfold executor_map.
  rewrite run_workers_all_complete by exact Hall. apply gather_completed.
Qed.

Lemma run_workers_own_outcome jobs completion :
  Forall2 (own_outcome fn) jobs (run_workers fn jobs completion).
Proof.
  unfold run_workers.
  assert (Hinit : Forall2 (own_outcome fn) jobs
                    (repeat None (List.length jobs))).
  { induction jobs; simpl; constructor; [left; reflexivity | assumption]. }
  revert Hinit. generalize (repeat (@None (result B)) (List.length jobs)).
  induction completion as [|i rest IH]; intros fs Hfs; simpl; [exact Hfs|].
  apply IH. unfold complete.
  destruct (nth_error jobs i) as [a|] eqn:Ha; [|exact Hfs].
  clear IH. revert i Ha.
  induction Hfs as [|a0 f0 jobs0 fs0 H0 Hrest IHf]; intros [|i] Ha; simpl in *;
    try discriminate.
  - injection Ha as ->. constructor; [right; reflexivity | exact Hrest].
  - constructor; [exact H0 | apply IHf; exact Ha].
Qed.

Lemma gather_own_outcome jobs fs bs :
  Forall2 (own_outcome fn) jobs fs ->
  gather fs = Some (Ok bs) ->
  Forall2 (fun a b => fn a = Ok b) jobs bs.
Proof.
  intros Hfs. revert bs.
  induction Hfs as [|a f jobs0 fs0 Hown Hrest IH]; intros bs Hg; simpl in Hg.
  - injection Hg as <-. constructor.
  - destruct f as [[b|e]|]; try discriminate.
    destruct (gather fs0) as [[bs0|e0]|]; try discriminate.
    injection Hg as <-. constructor; [|apply IH; reflexivity].
    destruct Hown as [Hown|Hown]; [discriminate|]. congruence.
Qed.

(** Whatever the pool returns are the outcomes of the jobs, in order. *)
Lemma executor_map_outcomes jobs completion bs :
  executor_map fn jobs completion = Some (Ok bs) ->
  Forall2 (fun a b => fn a = Ok b) jobs bs.
Proof.
  apply gather_own_outcome, run_workers_own_outcome.
Qed.

End ExecutorFacts.

(** ** Bulk evaluator *)

Lemma evaluate_row_risk sae_specs user_inputs row r :
  evaluate_row sae_specs user_inputs row = Ok r -> risk_matches_outcome r.
Proof.
  unfold evaluate_row.
  destruct (match_component_to_spec row sae_specs user_inputs)
    as [[is_match reason]|e]; simpl; [|discriminate].
  intros H; injection H as <-. unfold risk_matches_outcome; simpl.
  destruct is_match; simpl; repeat split; congruence.
Qed.

(** C5: for every evaluation result produced by
    [process_bulk_components], [risk_reduction] equals 100 if and only if
    [match] is true, and equals 0 whenever [match] is false. *)
Theorem risk_reduction_follows_match
  (component_df sae_specs : list dict) (user_inputs : dict)
  (completion : list nat) (results : list EvaluationResult) :
  process_bulk_components component_df sae_specs user_inputs completion
  = Some (Ok results) ->
  Forall (fun r =>
            (res_risk_reduction r = 100%Z <-> res_match r = true)
            /\ (res_match r = false -> res_risk_reduction r = 0%Z))
    results.
Proof.
  intros Hrun. apply executor_map_outcomes in Hrun.
  induction Hrun as [|row r rows rs Hrow _ IH]; constructor; [|exact IH].
  exact (evaluate_row_risk _ _ _ Hrow).
Qed.

Lemma risk_reduction_follows_match_witness :
  exists results,
    process_bulk_components [resistor_100; capacitor_part] [resistor_spec]
      wants_resistor_100 [1; 0]%nat = Some (Ok results)
    /\ map res_match results = [true; false]
    /\ map res_risk_reduction results = [100; 0]%Z
    /\ Forall (fun r =>
                 (res_risk_reduction r = 100%Z <-> res_match r = true)
                 /\ (res_match r = false -> res_risk_reduction r = 0%Z))
         results.
Proof.
  eexists. split; [vm_compute; reflexivity|].
  split; [reflexivity|]. split; [reflexivity|].
  apply (@risk_reduction_follows_match
           [resistor_100; capacitor_part] [resistor_spec] wants_resistor_100
           [1; 0]%nat).
  vm_compute. reflexivity.
Defined.

Lemma sequential_map_total (A B : Type) (fn : A -> result B) jobs :
  (forall a, In a jobs -> exists b, fn a = Ok b) ->
  exists bs,
    sequential_map fn jobs = Ok bs
    /\ Forall2 (fun a b => fn a = Ok b) jobs bs.
Proof.
  induction jobs as [|a rest IH]; intros Hfn; simpl.
  - exists []. split; [reflexivity | constructor].
  - destruct (Hfn a (or_introl eq_refl)) as [b Hb].
    destruct IH as (bs & Hbs & Hall); [intros; apply Hfn; right; assumption|].
    exists (b :: bs). rewrite Hb, Hbs. split; [reflexivity|].
    constructor; assumption.
Qed.

Lemma evaluate_row_returns sae_specs user_inputs row :
  sae_specs <> [] -> exists r, evaluate_row sae_specs user_inputs row = Ok r.
Proof.
  intros Hne. unfold evaluate_row.
  destruct (match_component_to_spec_returns row user_inputs Hne)
    as [[is_match reason] ->].
  simpl. eexists; reflexivity.
Qed.

(** With at least one spec, and every row evaluated by some worker, the
    bulk evaluator returns one result per row, the result at each index
    being the evaluation of the row at that index, in whatever order the
    workers finish. *)
Lemma process_bulk_components_in_row_order
  (component_df sae_specs : list dict) (user_inputs : dict)
  (completion : list nat) :
  sae_specs <> [] ->
  all_complete (List.length component_df) completion = true ->
  exists results,
    process_bulk_components component_df sae_specs user_inputs completion
    = Some (Ok results)
    /\ List.length results = List.length component_df
    /\ forall i row,
         nth_error component_df i = Some row ->
         exists r,
           nth_error results i = Some r
           /\ evaluate_row sae_specs user_inputs row = Ok r.
Proof.
  intros Hne Hall. unfold process_bulk_components.
  rewrite executor_map_sequential by exact Hall.
  assert (Htotal : forall row, In row component_df ->
                     exists r, evaluate_row sae_specs user_inputs row = Ok r)
    by (intros row _; apply evaluate_row_returns, Hne).
  destruct (sequential_map_total _ _ Htotal) as (results & -> & Hrows).
  exists results. split; [reflexivity|]. split.
  - symmetry. exact (Forall2_length Hrows).
  - clear Hall Htotal.
    induction Hrows as [|row0 r0 rows rs H0 _ IH]; intros [|i] row Hi;
      simpl in *; try discriminate.
    + injection Hi as <-. exists r0. split; [reflexivity | exact H0].
    + apply IH, Hi.
Qed.

(** With no spec at all the evaluation of the first row raises, and so
    does the bulk run, whatever rows follow. *)
Lemma process_bulk_components_without_specs
  (row : dict) (rows : list dict) (user_inputs : dict) (completion : list nat) :
  all_complete (S (List.length rows)) completion = true ->
  process_bulk_components (row :: rows) [] user_inputs completion
  = Some (Raise UnboundLocalError).
Proof.
  intros Hall. unfold process_bulk_components.
  rewrite executor_map_sequential by exact Hall. reflexivity.
Qed.

(** C8 fails on the code where the spec sequence is empty: the evaluation
    of the first row raises, and so does the bulk evaluator, in place of
    returning one result per row. *)
Theorem process_bulk_components_no_specs :
  process_bulk_components [resistor_100] [] wants_resistor_100 [0%nat]
  = Some (Raise UnboundLocalError).
Proof. reflexivity. Qed.

(** ** Normalizer *)

Lemma replace_char c new s :
  replace [c] new s = flat_map (fun x => if (c =? x)%N then new else [x]) s.
Proof.
  unfold replace. induction s as [|x t IH]; [reflexivity|].
  cbn [replace_from starts_with flat_map List.length Nat.sub].
  rewrite IH. destruct (c =? x)%N; destruct t; reflexivity.
Qed.

Lemma replace_absent c new s : ~ In c s -> replace [c] new s = s.
Proof.
  rewrite replace_char. induction s as [|x t IH]; intros Hc; [reflexivity|].
  simpl. destruct (N.eqb_spec c x) as [->|_].
  - exfalso. apply Hc. left; reflexivity.
  - simpl. f_equal. apply IH. intros H. apply Hc. right; exact H.
Qed.

Lemma in_replace c new s x :
  In x (replace [c] new s) -> In x new \/ (In x s /\ x <> c).
Proof.
  rewrite replace_char, in_flat_map. intros (y & Hy & Hx).
  destruct (N.eqb_spec c y) as [->|Hc]; [left; exact Hx|].
  destruct Hx as [<-|[]]. right. split; [exact Hy | congruence].
Qed.

Lemma lstrip_suffix s : exists p, s = p ++ lstrip s.
Proof.
  induction s as [|c t [p IH]]; [exists []; reflexivity|]. simpl.
  destruct (is_space c); [|exists []; reflexivity].
  exists (c :: p). simpl. f_equal. exact IH.
Qed.

Lemma lstrip_head s c t : lstrip s = c :: t -> is_space c = false.
Proof.
  induction s as [|x r IH]; simpl; [discriminate|].
  destruct (is_space x) eqn:E; [exact IH|]. congruence.
Qed.

Lemma lstrip_fixed s :
  match s with [] => True | c :: _ => is_space c = false end -> lstrip s = s.
Proof. destruct s as [|c t]; simpl; [reflexivity | intros ->; reflexivity]. Qed.

Lemma lstrip_idempotent s : lstrip (lstrip s) = lstrip s.
Proof.
  apply lstrip_fixed. destruct (lstrip s) as [|c t] eqn:E; [exact I|].
  exact (lstrip_head _ E).
Qed.

Lemma in_lstrip s x : In x (lstrip s) -> In x s.
Proof.
  destruct (lstrip_suffix s) as [p Hp]. intros H. rewrite Hp.
  apply in_or_app. right; exact H.
Qed.

Lemma in_strip s x : In x (strip s) -> In x s.
Proof.
  unfold strip, rstrip. intros H.
  apply in_rev, in_lstrip, in_rev, in_lstrip in H. exact H.
Qed.

Lemma strip_idempotent s : strip (strip s) = strip s.
Proof.
  unfold strip, rstrip.
  set (u := lstrip s). set (v := lstrip (rev u)).
  assert (Hleft : lstrip (rev v) = rev v).
  { apply lstrip_fixed. destruct (rev v) as [|c t] eqn:E; [exact I|].
    destruct (lstrip_suffix (rev u)) as [p Hp]. fold v in Hp.
    apply (f_equal (@rev codepoint)) in Hp.
    rewrite rev_involutive, rev_app_distr, E in Hp. simpl in Hp.
    apply (@lstrip_head s c (t ++ rev p)). exact Hp. }
  rewrite Hleft, rev_involutive. unfold v at 1.
  rewrite lstrip_idempotent. reflexivity.
Qed.

Lemma strip_fixed s :
  (forall c, In c s -> is_space c = false) -> strip s = s.
Proof.
  intros Hs. unfold strip, rstrip.
  assert (Hl : forall t, (forall c, In c t -> is_space c = false) -> lstrip t = t).
  { intros t Ht. apply lstrip_fixed. destruct t as [|c r]; [exact I|].
    apply Ht. left; reflexivity. }
  rewrite (Hl s Hs), Hl, rev_involutive; [reflexivity|].
  intros c Hc. apply Hs, in_rev. exact Hc.
Qed.

Lemma false_is_true : false = true <-> False.
Proof. split; [discriminate | contradiction]. Qed.

Ltac bool_to_prop :=
  repeat progress
    (rewrite ?andb_true_iff, ?andb_false_iff, ?orb_true_iff, ?orb_false_iff,
       ?negb_true_iff, ?negb_false_iff, ?N.leb_le, ?N.leb_gt, ?N.ltb_lt,
       ?N.ltb_ge, ?N.eqb_eq, ?N.eqb_neq, ?false_is_true in *).

Ltac split_ifs :=
  repeat match goal with
         | |- context [if ?b then _ else _] => destruct b eqn:?
         end.

Lemma lower_cp_spec c :
  ((65 <= c <= 90 /\ lower_cp c = c + 32)
   \/ (192 <= c <= 222 /\ c <> 215 /\ lower_cp c = c + 32)
   \/ (913 <= c <= 939 /\ c <> 930 /\ lower_cp c = c + 32)
   \/ (1024 <= c <= 1039 /\ lower_cp c = c + 80)
   \/ (1040 <= c <= 1071 /\ lower_cp c = c + 32)
   \/ (c = 8486 /\ lower_cp c = 969)
   \/ (c = 8490 /\ lower_cp c = 107)
   \/ (c = 8491 /\ lower_cp c = 229)
   \/ ((c < 65 \/ 90 < c < 192 \/ c = 215 \/ 222 < c < 913 \/ c = 930
        \/ 939 < c < 1024 \/ 1071 < c)
       /\ c <> 8486 /\ c <> 8490 /\ c <> 8491 /\ lower_cp c = c))%N.
Proof.
  unfold lower_cp. split_ifs; bool_to_prop; lia.
Qed.

Lemma lower_cp_idempotent c : lower_cp (lower_cp c) = lower_cp c.
Proof.
  pose proof (lower_cp_spec c). pose proof (lower_cp_spec (lower_cp c)). lia.
Qed.

Lemma lower_cp_k c :
  lower_cp c = 107%N -> c = 107%N \/ lowers_to_k c = true.
Proof.
  unfold lowers_to_k. pose proof (lower_cp_spec c). bool_to_prop. lia.
Qed.

Lemma lower_cp_micro c : lower_cp c = 181%N -> c = 181%N.
Proof. pose proof (lower_cp_spec c). lia. Qed.

Lemma lower_cp_omega c : lower_cp c <> 937%N.
Proof. pose proof (lower_cp_spec c). lia. Qed.

Lemma numeric_char_cases c :
  numeric_char c = true ->
  ((48 <= c <= 57) \/ c = 43 \/ c = 45 \/ c = 46 \/ c = 101 \/ c = 105
   \/ c = 110 \/ c = 102 \/ c = 97)%N.
Proof.
  unfold numeric_char, is_ascii_digit.
  change (py "+-.einfa") with [43; 45; 46; 101; 105; 110; 102; 97]%N.
  cbn [existsb]. intros H. bool_to_prop. lia.
Qed.

Lemma numeric_char_lower c : numeric_char c = true -> lower_cp c = c.
Proof.
  intros H. apply numeric_char_cases in H. pose proof (lower_cp_spec c). lia.
Qed.

Lemma numeric_char_no_space c : numeric_char c = true -> is_space c = false.
Proof.
  intros H. apply numeric_char_cases in H. unfold is_space.
  destruct (_ || _) eqn:E; [|reflexivity]. bool_to_prop. lia.
Qed.
(** A string of numeric characters is left as it is. *)
Lemma normalize_units_numeric s :
  Forall (fun c => numeric_char c = true) s -> normalize_units (VStr s) = s.
Proof.
  intros Hs. rewrite Forall_forall in Hs. unfold normalize_units, str.
  assert (Hnot : forall c, ~ numeric_char c = true -> ~ In c s)
    by (intros c Hc Hin; apply Hc, Hs, Hin).
  unfold micro_sign, capital_omega. change (py "k") with [107%N].
  rewrite (@replace_absent 181%N _ s), (@replace_absent 937%N _ s),
    (@replace_absent 107%N _ s) by (apply Hnot; vm_compute; discriminate).
  replace (lower s) with s.
  - apply strip_fixed. intros c Hc. apply numeric_char_no_space, Hs, Hc.
  - unfold lower. symmetry. rewrite <- (map_id s) at 2.
    apply map_ext_in. intros c Hc. apply numeric_char_lower, Hs, Hc.
Qed.

Lemma uint_digits_numeric u :
  Forall (fun c => numeric_char c = true) (uint_digits u).
Proof. induction u; simpl; constructor; auto. Qed.

Lemma str_int_numeric z : Forall (fun c => numeric_char c = true) (str_int z).
Proof.
  destruct z as [|p|p]; unfold str_int, str_N.
  - apply uint_digits_numeric.
  - apply uint_digits_numeric.
  - constructor; [reflexivity | apply uint_digits_numeric].
Qed.

Lemma Forall_firstn_of (A : Type) (P : A -> Prop) n (l : list A) :
  Forall P l -> Forall P (firstn n l).
Proof.
  intros H. revert n; induction H; intros [|n]; simpl; constructor; auto.
Qed.

Lemma Forall_skipn_of (A : Type) (P : A -> Prop) n (l : list A) :
  Forall P l -> Forall P (skipn n l).
Proof.
  intros H. revert n; induction H; intros [|n]; simpl; auto.
Qed.

Lemma drop_zeros_numeric s :
  Forall (fun c => numeric_char c = true) s ->
  Forall (fun c => numeric_char c = true) (drop_zeros s).
Proof.
  induction 1 as [|c t Hc Ht IH]; simpl; [constructor|].
  destruct (c =? 48)%N; [exact IH | constructor; assumption].
Qed.

Lemma zeros_numeric n : Forall (fun c => numeric_char c = true) (zeros n).
Proof.
  unfold zeros. induction (Z.to_nat n); simpl; constructor; auto.
Qed.

Lemma layout_numeric ds decpt :
  Forall (fun c => numeric_char c = true) ds ->
  Forall (fun c => numeric_char c = true) (layout ds decpt).
Proof.
  intros Hds. unfold layout.
  repeat match goal with
         | |- Forall _ (if ?b then _ else _) => destruct b
         | |- Forall _ (_ ++ _) => apply Forall_app; split
         | |- Forall _ (_ :: _) => constructor
         | |- Forall _ [] => constructor
         | |- numeric_char ?c = true => reflexivity
         | |- Forall _ (firstn _ _) => apply Forall_firstn_of
         | |- Forall _ (skipn _ _) => apply Forall_skipn_of
         | |- Forall _ (str_N _) => apply uint_digits_numeric
         | |- Forall _ (zeros _) => apply zeros_numeric
         | |- Forall _ (py _) => repeat constructor
         | |- numeric_char (if ?b then _ else _) = true => destruct b
         | |- _ => assumption
         end.
Qed.

Lemma repr_numeric x : Forall (fun c => numeric_char c = true) (repr x).
Proof.
  destruct x as [s|s| |s m e]; simpl.
  - destruct s; repeat constructor.
  - destruct s; repeat constructor.
  - repeat constructor.
  - destruct (shortest m e) as [ds decpt] eqn:E.
    apply Forall_app; split; [destruct s; repeat constructor|].
    apply layout_numeric. unfold shortest in E.
    destruct (if (0 <=? e)%Z then _ else _) as [num den].
    destruct (shortest_from _ _ _ _ _ _) as [c e10].
    injection E as <- _.
    apply Forall_rev, drop_zeros_numeric, Forall_rev, uint_digits_numeric.
Qed.

Lemma normalize_units_int z : normalize_units (VInt z) = str_int z.
Proof.
  unfold normalize_units, str. apply strip_fixed. intros c Hc.
  apply numeric_char_no_space.
  exact (proj1 (Forall_forall _ _) (str_int_numeric z) c Hc).
Qed.

Lemma normalize_units_float x : normalize_units (VFloat x) = repr x.
Proof.
  unfold normalize_units, str. apply strip_fixed. intros c Hc.
  apply numeric_char_no_space.
  exact (proj1 (Forall_forall _ _) (repr_numeric x) c Hc).
Qed.

(** C3, as stated, fails: a capital K survives the substitution of [k],
    and is lowered to a [k] that the next call expands; and a [bool],
    which is an [int], is printed with a capital that the next call
    lowers. *)
Lemma normalize_units_not_idempotent :
  normalize_units (VStr (py "K")) = py "k"
  /\ normalize_units (VStr (normalize_units (VStr (py "K")))) = py "000"
  /\ normalize_units (VStr (normalize_units (VStr (py "K"))))
     <> normalize_units (VStr (py "K"))
  /\ normalize_units (VBool true) = py "True"
  /\ normalize_units (VStr (normalize_units (VBool true))) = py "true"
  /\ normalize_units (VStr (normalize_units (VBool true)))
     <> normalize_units (VBool true).
Proof.
  split; [reflexivity | split; [reflexivity|]].
  split; [vm_compute; discriminate|].
  split; [reflexivity | split; [reflexivity|]]. vm_compute. discriminate.
Qed.

(** C3 (amended): the Normalizer is idempotent on every [int] that is no
    [bool], on every [float], and on every string that holds no capital
    K (nor the KELVIN SIGN, the one other character whose lower case is
    k): there, normalize_units(normalize_units(x)) equals
    normalize_units(x).  [True], [False] and [None] are left out: they
    are printed with a capital letter. *)
Theorem normalize_units_idempotent (x : value) :
  str_or_number x = true ->
  no_capital_k x = true ->
  normalize_units (VStr (normalize_units x)) = normalize_units x.
Proof.
  destruct x as [s|z|f|b|]; try discriminate; intros _.
  2: { intros _. rewrite normalize_units_int.
       apply normalize_units_numeric, str_int_numeric. }
  2: { intros _. rewrite normalize_units_float.
       apply normalize_units_numeric, repr_numeric. }
  cbn [no_capital_k]. rewrite forallb_forall. intros Hk.
  unfold normalize_units at 2. cbn [str].
  set (t := replace (py "k") (py "000") _).
  assert (Ht : forall c, In c t ->
                 c <> 181%N /\ c <> 937%N /\ c <> 107%N
                 /\ lowers_to_k c = false).
  { intros c Hc. unfold t in Hc. change (py "k") with [107%N] in Hc.
    unfold capital_omega, micro_sign in Hc.
    apply in_replace in Hc. destruct Hc as [Hc|[Hc Hk']].
    { vm_compute in Hc. intuition (subst; vm_compute; congruence). }
    apply in_replace in Hc. destruct Hc as [Hc|[Hc Ho]].
    { vm_compute in Hc. intuition (subst; vm_compute; congruence). }
    apply in_replace in Hc. destruct Hc as [Hc|[Hc Hm]].
    { vm_compute in Hc. intuition (subst; vm_compute; congruence). }
    specialize (Hk c Hc). apply negb_true_iff in Hk. auto. }
  assert (Hy : forall c, In c (strip (lower t)) ->
                 c <> 181%N /\ c <> 937%N /\ c <> 107%N
                 /\ lower_cp c = c).
  { intros c Hc. apply in_strip in Hc. unfold lower in Hc.
    apply in_map_iff in Hc. destruct Hc as (d & <- & Hd).
    destruct (Ht d Hd) as (Hm & Ho & Hk' & Hcap).
    repeat split.
    - intros E. apply lower_cp_micro in E. contradiction.
    - apply lower_cp_omega.
    - intros E. apply lower_cp_k in E. destruct E; congruence.
    - apply lower_cp_idempotent. }
  unfold normalize_units. cbn [str].
  unfold micro_sign, capital_omega. change (py "k") with [107%N].
  set (y := strip (lower t)) in *.
  rewrite (@replace_absent 181%N _ y), (@replace_absent 937%N _ y),
    (@replace_absent 107%N _ y) by (intros Hc; apply Hy in Hc; tauto).
  unfold y. replace (lower (strip (lower t))) with (strip (lower t)).
  - apply strip_idempotent.
  - unfold lower at 2. symmetry. rewrite <- (map_id (strip _)) at 2.
    apply map_ext_in. intros c Hc. apply Hy, Hc.
Qed.

Lemma normalize_units_idempotent_witness :
  str_or_number (VStr (181%N :: py "F / 4k7 ")) = true
  /\ no_capital_k (VStr (181%N :: py "F / 4k7 ")) = true
  /\ normalize_units (VStr (181%N :: py "F / 4k7 ")) = py "uf / 40007"
  /\ normalize_units (VStr (normalize_units (VStr (181%N :: py "F / 4k7 "))))
     = normalize_units (VStr (181%N :: py "F / 4k7 ")).
Proof.
  split; [reflexivity | split; [reflexivity | split; [reflexivity|]]].
  apply (@normalize_units_idempotent (VStr (181%N :: py "F / 4k7 ")));
    reflexivity.
Defined.

(** ** Tolerance comparator *)

(** C6: [within_tolerance] never raises an exception: whenever the body
    of its [try] raises, it returns false; so it does when either input
    fails to parse as a number, and when the parsed expected value is
    zero. *)
Theorem within_tolerance_fails_closed
  (expected actual : value) (tolerance : float) :
  (forall e,
     within_tolerance_try expected actual tolerance = Raise e ->
     within_tolerance expected actual tolerance = false)
  /\ ((exists e, float_of expected = Raise e)
      \/ (exists e, float_of actual = Raise e)
      \/ (exists x, float_of expected = Ok x /\ is_zero x = true) ->
      within_tolerance expected actual tolerance = false).
Proof.
  unfold within_tolerance. split.
  - intros e ->. reflexivity.
  - unfold within_tolerance_try, div.
    intros [[e He]|[[e He]|(x & Hx & Hzero)]].
    + rewrite He. reflexivity.
    + rewrite He. destruct (float_of expected); reflexivity.
    + rewrite Hx. simpl. destruct (float_of actual); simpl; [|reflexivity].
      rewrite Hzero. reflexivity.
Qed.

Lemma within_tolerance_fails_closed_witness :
  float_of (VStr (py "0.0")) = Ok zero
  /\ within_tolerance_try (VStr (py "0.0")) (VInt 0) default_tolerance
     = Raise ZeroDivisionError
  /\ within_tolerance (VStr (py "0.0")) (VInt 0) default_tolerance = false.
Proof.
  split; [reflexivity | split; [reflexivity|]].
  apply (proj2 (within_tolerance_fails_closed
                  (VStr (py "0.0")) (VInt 0) default_tolerance)).
  right; right. exists zero. split; reflexivity.
Defined.

Section Rounding.

Lemma shr_1_nonneg mrs : (0 <= shr_m mrs)%Z -> (0 <= shr_m (shr_1 mrs))%Z.
Proof.
  destruct mrs as [m r s]. destruct m as [|[p|p|]|p]; simpl; lia.
Qed.

Lemma iter_pos_invariant (A : Type) (P : A -> Prop) (f : A -> A) :
  (forall x, P x -> P (f x)) -> forall n x, P x -> P (iter_pos f n x).
Proof.
  intros Hf. induction n as [n IH|n IH|]; intros x Hx; simpl; auto.
Qed.

Lemma shr_fexp_nonneg m e l :
  (0 <= m)%Z -> (0 <= shr_m (fst (shr_fexp prec emax m e l)))%Z.
Proof.
  intros Hm. unfold shr_fexp, shr.
  assert (H0 : (0 <= shr_m (shr_record_of_loc m l))%Z)
    by (destruct l as [|[]]; exact Hm).
  destruct (_ - e)%Z; simpl; try exact H0.
  apply iter_pos_invariant; [exact shr_1_nonneg | exact H0].
Qed.

Lemma round_nearest_even_nonneg m l :
  (0 <= m)%Z -> (0 <= round_nearest_even m l)%Z.
Proof.
  intros Hm. destruct l as [|[]]; simpl; try lia.
  destruct (Z.even m); lia.
Qed.

(** Rounding a non-negative mantissa gives a float of the sign asked
    for, never a NaN. *)
Lemma binary_round_aux_sign s m e l :
  (0 <= m)%Z -> has_sign s (binary_round_aux prec emax s m e l) = true.
Proof.
  intros Hm. unfold binary_round_aux.
  pose proof (shr_fexp_nonneg e l Hm) as H1.
  destruct (shr_fexp prec emax m e l) as [mrs' e']. simpl in H1.
  pose proof (shr_fexp_nonneg e' loc_Exact
                (round_nearest_even_nonneg (loc_of_shr_record mrs') H1)) as H2.
  destruct (shr_fexp prec emax _ e' loc_Exact) as [mrs'' e'']. simpl in H2.
  destruct (shr_m mrs'') as [|p|p]; [| |lia]; simpl.
  - apply eqb_reflx.
  - destruct (Z.leb _ _); apply eqb_reflx.
Qed.

Lemma binary_normalize_not_nan m e sz :
  is_nan (binary_normalize prec emax m e sz) = false.
Proof.
  destruct m as [|p|p]; simpl; [reflexivity| |];
    unfold binary_round;
    destruct (shl_align _ _ _) as [mz ez];
    match goal with
    | |- is_nan (binary_round_aux _ _ ?s ?m ?e ?l) = false =>
        pose proof (@binary_round_aux_sign s m e l) as H;
        destruct (binary_round_aux prec emax s m e l);
        [reflexivity | reflexivity | simpl in H; lia | reflexivity]
    end.
Qed.

End Rounding.

Lemma sub_not_nan e a :
  is_finite e = true -> is_nan a = false -> is_nan (sub e a) = false.
Proof.
  unfold sub, SFsub.
  destruct e as [se|se| |se me ee], a as [sa|sa| |sa ma ea]; simpl;
    intros He Ha; try discriminate; try reflexivity.
  - destruct se, sa; reflexivity.
  - apply binary_normalize_not_nan.
Qed.

Lemma abs_sign x : is_nan x = false -> has_sign false (abs x) = true.
Proof. destruct x; simpl; intros H; try discriminate; reflexivity. Qed.

Lemma SFdiv_core_binary_nonneg m1 e1 m2 e2 :
  (0 <= fst (fst (SFdiv_core_binary prec emax (Zpos m1) e1 (Zpos m2) e2)))%Z.
Proof.
  unfold SFdiv_core_binary.
  set (m' := match (e1 - e2 - _)%Z with
             | Z0 => Zpos m1
             | Zpos _ => Z.shiftl (Zpos m1) _
             | Zneg _ => 0%Z
             end).
  assert (Hm' : (0 <= m')%Z).
  { unfold m'. destruct (e1 - e2 - _)%Z; try lia.
    apply Z.shiftl_nonneg. lia. }
  pose proof (Z.div_pos m' (Zpos m2) Hm' eq_refl) as Hq.
  unfold Z.div in Hq. destruct (Z.div_eucl m' (Zpos m2)) as [q r].
  exact Hq.
Qed.

(** A non-negative float over a negative finite one is never above zero. *)
Lemma div_by_negative x m e :
  has_sign false x = true ->
  exists q,
    div x (S754_finite true m e) = Ok q /\ has_sign true q = true.
Proof.
  intros Hx. unfold div. simpl. eexists. split; [reflexivity|].
  destruct x as [s|s| |s mx ex]; simpl in Hx |- *; try discriminate.
  - destruct s; [discriminate | reflexivity].
  - destruct s; [discriminate | reflexivity].
  - destruct s; [discriminate|].
    pose proof (SFdiv_core_binary_nonneg mx ex m e) as Hq.
    destruct (SFdiv_core_binary prec emax (Zpos mx) ex (Zpos m) e)
      as [[mz ez] lz].
    apply binary_round_aux_sign. exact Hq.
Qed.

Lemma leb_negative q tolerance :
  has_sign true q = true -> leb zero tolerance = true ->
  leb q tolerance = true.
Proof.
  unfold leb, SFleb, zero.
  destruct q as [[]|[]| |[] mq eq], tolerance as [[]|[]| |[] mt et];
    simpl; intros Hq Ht; try discriminate; reflexivity.
Qed.

(** C10, as stated, fails where the arithmetic yields a NaN, which
    compares false with every tolerance: with an infinite negative
    expected value, and with an actual value that is a NaN. *)
Lemma negative_expected_rejected :
  leb zero default_tolerance = true
  /\ float_of (VStr (py "-inf")) = Ok (S754_infinity true)
  /\ ltb (S754_infinity true) zero = true
  /\ float_of (VStr (py "1")) = Ok (S754_finite false 4503599627370496 (-52))
  /\ within_tolerance (VStr (py "-inf")) (VStr (py "1")) default_tolerance
     = false
  /\ float_of (VStr (py "-1")) = Ok (S754_finite true 4503599627370496 (-52))
  /\ ltb (S754_finite true 4503599627370496 (-52)) zero = true
  /\ float_of (VStr (py "nan")) = Ok S754_nan
  /\ within_tolerance (VStr (py "-1")) (VStr (py "nan")) default_tolerance
     = false.
Proof. repeat split; vm_compute; reflexivity. Qed.

(** C10 (amended): for every tolerance >= 0 and every pair of inputs
    that both parse as numbers, the expected value finite and strictly
    negative, the actual value not a NaN, [within_tolerance] returns true,
    however far the actual value is from the expected one. *)
Theorem within_tolerance_negative_expected
  (expected actual : value) (tolerance e a : float) :
  leb zero tolerance = true ->
  float_of expected = Ok e ->
  float_of actual = Ok a ->
  ltb e zero = true ->
  is_finite e = true ->
  is_nan a = false ->
  within_tolerance expected actual tolerance = true.
Proof.
  intros Htol He Ha Hneg Hfin Hnan.
  unfold within_tolerance, within_tolerance_try. rewrite He, Ha. simpl.
  pose proof (abs_sign _ (sub_not_nan e a Hfin Hnan)) as Hx.
  destruct e as [s|s| |[] m ex]; cbv in Hneg, Hfin; try discriminate.
  destruct (div_by_negative _ m ex Hx) as (q & -> & Hq). simpl.
  apply leb_negative; assumption.
Qed.

Lemma within_tolerance_negative_expected_witness :
  leb zero default_tolerance = true
  /\ float_of (VStr (py "-100"))
     = Ok (S754_finite true 7036874417766400 (-46))
  /\ float_of (VStr (py "1e300"))
     = Ok (S754_finite false 6724873095247260 944)
  /\ ltb (S754_finite true 7036874417766400 (-46)) zero = true
  /\ within_tolerance (VStr (py "-100")) (VStr (py "1e300")) default_tolerance
     = true.
Proof.
  split; [reflexivity|].
  split; [vm_compute; reflexivity|].
  split; [vm_compute; reflexivity|].
  split; [reflexivity|].
  apply (@within_tolerance_negative_expected
           (VStr (py "-100")) (VStr (py "1e300")) default_tolerance
           (S754_finite true 7036874417766400 (-46))
           (S754_finite false 6724873095247260 944));
    vm_compute; reflexivity.
Defined.

(** ** Program store *)

Lemma pyval_induction (P : pyval -> Prop) :
  P PyNone ->
  (forall b, P (PyBool b)) ->
  (forall z, P (PyInt z)) ->
  (forall x, P (PyFloat x)) ->
  (forall s, P (PyStr s)) ->
  (forall items, Forall P items -> P (PyList items)) ->
  (forall items, Forall P items -> P (PyTuple items)) ->
  (forall entries, Forall (fun kv => P (snd kv)) entries -> P (PyDict entries)) ->
  forall data, P data.
Proof.
  intros Hnone Hbool Hint Hfloat Hstr Hlist Htuple Hdict.
  fix IH 1. intros [| b | z | x | s | items | items | entries].
  - exact Hnone.
  - apply Hbool.
  - apply Hint.
  - apply Hfloat.
  - apply Hstr.
  - apply Hlist. induction items as [|v items IHitems]; constructor;
      [apply IH | exact IHitems].
  - apply Htuple. induction items as [|v items IHitems]; constructor;
      [apply IH | exact IHitems].
  - apply Hdict. induction entries as [|[k v] entries IHentries]; constructor;
      [apply IH | exact IHentries].
Qed.

(** Reading back what was written turns the tuples into lists and keeps
    the rest. *)
Lemma json_load_dump data : json_load (json_dump data) = listed data.
Proof.
  induction data as [| | | | |items IH|items IH|entries IH]
    using pyval_induction; simpl; try reflexivity.
  - f_equal. rewrite map_map. apply map_ext_in. intros v Hv.
    exact (proj1 (Forall_forall _ _) IH v Hv).
  - f_equal. rewrite map_map. apply map_ext_in. intros v Hv.
    exact (proj1 (Forall_forall _ _) IH v Hv).
  - f_equal. rewrite map_map. apply map_ext_in. intros [k v] Hkv. simpl.
    f_equal. exact (proj1 (Forall_forall _ _) IH (k, v) Hkv).
Qed.

Lemma location_eqb_refl l : location_eqb l l = true.
Proof.
  induction l as [|p l IH]; simpl; [reflexivity|].
  rewrite eqb_refl. exact IH.
Qed.

(** Writing a file moves no directory: the names lead where they led. *)
Lemma walk_after_write fs place doc ps : forall dir l,
  walk fs dir ps = Ok l -> walk (write_file fs place doc) dir ps = Ok l.
Proof.
  induction ps as [|p rest IH]; intros dir l; simpl; [trivial|].
  destruct (is_dir fs dir); [apply IH|].
  destruct (file fs dir); discriminate.
Qed.

(** Where [save_program_data] wrote: a place the path leads to, which is
    no directory and which the system did not refuse. *)
Lemma save_program_data_returns program_name data fs fs' :
  save_program_data program_name data fs = Ok fs' ->
  exists place,
    encodable_path (program_path program_name) = true
    /\ resolve fs (program_path program_name) = Ok place
    /\ is_dir fs place = false
    /\ refused fs place = false
    /\ fs' = write_file fs place (json_dump data).
Proof.
  unfold save_program_data, open_for_writing.
  destruct (encodable_path _); [|discriminate]. simpl.
  destruct (resolve fs _) as [place|e]; [|discriminate]. simpl.
  destruct (is_dir fs place) eqn:Hdir; [discriminate|].
  destruct (refused fs place) eqn:Href; [discriminate|].
  intros H. injection H as <-. exists place. repeat split; assumption.
Qed.

Lemma load_after_save program_name data fs fs' :
  save_program_data program_name data fs = Ok fs' ->
  load_program_data program_name fs' = Ok (listed data).
Proof.
  intros Hsave. apply save_program_data_returns in Hsave.
  destruct Hsave as (place & Henc & Hplace & Hdir & _ & ->).
  assert (Hplace' : resolve (write_file fs place (json_dump data))
                      (program_path program_name) = Ok place).
  { unfold resolve in *. apply walk_after_write. exact Hplace. }
  unfold load_program_data, path_exists, open_for_reading.
  rewrite Henc, Hplace'. cbn [write_file is_dir file bind negb andb].
  rewrite Hdir, location_eqb_refl. cbn [orb negb bind load_content].
  rewrite json_load_dump. reflexivity.
Qed.

Lemma listed_tuple_free data : tuple_free data = true -> listed data = data.
Proof.
  induction data as [| | | | |items IH|items IH|entries IH]
    using pyval_induction; simpl; intros Hfree; try reflexivity;
    try discriminate; rewrite forallb_forall in Hfree; f_equal.
  - rewrite <- (map_id items) at 2. apply map_ext_in. intros v Hv.
    apply (proj1 (Forall_forall _ _) IH v Hv), Hfree, Hv.
  - rewrite <- (map_id entries) at 2. apply map_ext_in. intros [k v] Hkv.
    simpl. f_equal.
    apply (proj1 (Forall_forall _ _) IH (k, v) Hkv), (Hfree (k, v)), Hkv.
Qed.

Lemma SFeqb_refl x : is_nan x = false -> SFeqb x x = true.
Proof.
  unfold SFeqb. destruct x as [s|s| |s m e]; simpl; intros H;
    try discriminate; try reflexivity.
  - destruct s; reflexivity.
  - rewrite Z.compare_refl, Pos.compare_cont_refl. destruct s; reflexivity.
Qed.

Lemma items_eq_refl (A : Type) (eq : A -> A -> bool) (l : list A) :
  Forall (fun x => eq x x = true) l -> items_eq eq l l = true.
Proof.
  induction 1 as [|x l Hx _ IH]; simpl; [reflexivity|].
  rewrite Hx, IH. reflexivity.
Qed.

Lemma lookup_py_distinct entries k v :
  distinct (map fst entries) = true ->
  In (k, v) entries -> lookup_py entries k = Some v.
Proof.
  induction entries as [|[k0 v0] entries IH]; simpl; [contradiction|].
  rewrite andb_true_iff, negb_true_iff. intros [Hfresh Hrest] [Hhead|Htail].
  - injection Hhead as -> ->. rewrite eqb_refl. reflexivity.
  - destruct (PyStr.eqb k0 k) eqn:E; [|apply IH; assumption].
    apply eqb_eq in E. subst k0. exfalso.
    assert (Hex : existsb (PyStr.eqb k) (map fst entries) = true).
    { apply existsb_exists. exists k. split; [|apply eqb_refl].
      apply in_map_iff. exists (k, v). split; [reflexivity | exact Htail]. }
    congruence.
Qed.

(** [==] holds between a value and itself when no NaN stands in it. *)
Lemma py_eq_refl data :
  nan_free data = true -> keys_distinct data = true -> py_eq data data = true.
Proof.
  induction data as [|b|z|x|s|items IH|items IH|entries IH]
    using pyval_induction; simpl; intros Hnan Hkeys.
  - reflexivity.
  - apply eqb_reflx.
  - apply Z.eqb_refl.
  - apply SFeqb_refl. apply negb_true_iff. exact Hnan.
  - apply eqb_refl.
  - apply items_eq_refl. rewrite forallb_forall in Hnan, Hkeys.
    rewrite Forall_forall in IH |- *. intros v Hv.
    apply IH; [exact Hv | apply Hnan, Hv | apply Hkeys, Hv].
  - apply items_eq_refl. rewrite forallb_forall in Hnan, Hkeys.
    rewrite Forall_forall in IH |- *. intros v Hv.
    apply IH; [exact Hv | apply Hnan, Hv | apply Hkeys, Hv].
  - rewrite Nat.eqb_refl. simpl.
    apply andb_true_iff in Hkeys. destruct Hkeys as [Hdistinct Hkeys].
    rewrite forallb_forall in Hnan, Hkeys |- *.
    rewrite Forall_forall in IH. intros [k v] Hkv. simpl.
    rewrite (lookup_py_distinct _ _ _ Hdistinct Hkv).
    apply (IH (k, v) Hkv); [apply (Hnan (k, v)), Hkv | apply (Hkeys (k, v)), Hkv].
Qed.

Lemma dict_py_tuple_free d : tuple_free (dict_py d) = true.
Proof.
  unfold dict_py. simpl. rewrite forallb_forall. intros kv Hkv.
  apply in_map_iff in Hkv. destruct Hkv as ([k v] & <- & _).
  destruct v; reflexivity.
Qed.

Lemma results_py_tuple_free results :
  no_differences results = true -> tuple_free (results_py results) = true.
Proof.
  unfold no_differences, results_py. simpl. rewrite !forallb_forall.
  intros Hno v Hv. apply in_map_iff in Hv. destruct Hv as (r & <- & Hr).
  specialize (Hno r Hr). rewrite forallb_forall in Hno.
  unfold result_py. cbn [tuple_free forallb snd].
  rewrite dict_py_tuple_free. cbn [andb].
  rewrite andb_true_r. rewrite forallb_forall. intros c Hc.
  apply in_map_iff in Hc. destruct Hc as (cand & <- & Hcand).
  specialize (Hno cand Hcand). unfold candidate_py.
  cbn [tuple_free forallb snd]. rewrite dict_py_tuple_free. cbn [andb].
  destruct (cand_differences cand); [reflexivity | discriminate].
Qed.

(** C9, as stated, fails: the difference triples of a saved result are
    tuples and come back as lists, which equal no tuple; a NaN cell comes
    back as a NaN, which equals nothing; and under a name that leads
    into a folder that is not there, [open] raises, nothing is saved and
    [load_program_data] returns the empty dict. *)
Lemma saved_results_not_equal_when_loaded :
  process_bulk_components [capacitor_part] [inductor_spec] wants_resistor
    [0%nat] = Some (Ok sample_results)
  /\ map (fun r => map cand_differences (res_alternatives r)) sample_results
     = [[[(py "type", VStr (py "capacitor"), VStr (py "inductor"))]]]
  /\ round_trips (py "demo_program") (results_py sample_results) no_files
     = Ok false
  /\ process_bulk_components [blank_value_part] [inductor_spec] [] [0%nat]
     = Some (Ok blank_value_results)
  /\ round_trips (py "demo_program") (results_py blank_value_results)
       no_files = Ok false
  /\ process_bulk_components [resistor_100] [resistor_spec]
       wants_resistor_100 [0%nat] = Some (Ok matching_results)
  /\ saved_then_loaded (py "2024/demo") (results_py matching_results)
       no_files = Raise FileNotFoundError
  /\ load_program_data (py "2024/demo") no_files = Ok (PyDict []).
Proof. repeat split; vm_compute; reflexivity. Qed.

(** C9 (amended): for every program name and every result sequence R,
    whenever [save_program_data(name, R)] returns (that is, [open] raises
    nothing), [load_program_data(name)] afterwards returns R with every
    tuple, that is every difference triple, turned into a list; the value
    returned is equal to R when no result carries a difference triple and
    no cell of R is a NaN. *)
Theorem program_store_round_trip
  (program_name : pystr) (results : list EvaluationResult)
  (fs fs' : filesystem) :
  save_program_data program_name (results_py results) fs = Ok fs' ->
  load_program_data program_name fs' = Ok (listed (results_py results))
  /\ saved_then_loaded program_name (results_py results) fs
     = Ok (listed (results_py results))
  /\ (no_differences results = true ->
      nan_free (results_py results) = true ->
      keys_distinct (results_py results) = true ->
      round_trips program_name (results_py results) fs = Ok true).
Proof.
  intros Hsave. pose proof (load_after_save _ _ _ Hsave) as Hload.
  assert (Hboth : saved_then_loaded program_name (results_py results) fs
                  = Ok (listed (results_py results))).
  { unfold saved_then_loaded. rewrite Hsave. exact Hload. }
  split; [exact Hload | split; [exact Hboth|]].
  intros Hno Hnan Hkeys. unfold round_trips. rewrite Hboth. cbn [bind].
  rewrite listed_tuple_free by (apply results_py_tuple_free, Hno).
  f_equal. apply py_eq_refl; assumption.
Qed.

Lemma program_store_round_trip_witness :
  process_bulk_components [resistor_100] [resistor_spec] wants_resistor_100
    [0%nat] = Some (Ok matching_results)
  /\ save_program_data (py "demo_program") (results_py matching_results)
       no_files = Ok demo_saved
  /\ no_differences matching_results = true
  /\ nan_free (results_py matching_results) = true
  /\ keys_distinct (results_py matching_results) = true
  /\ load_program_data (py "demo_program") demo_saved
     = Ok (listed (results_py matching_results))
  /\ round_trips (py "demo_program") (results_py matching_results) no_files
     = Ok true.
Proof.
  split; [vm_compute; reflexivity|].
  split; [reflexivity|].
  split; [vm_compute; reflexivity|].
  split; [vm_compute; reflexivity|].
  split; [vm_compute; reflexivity|].
  pose proof (@program_store_round_trip (py "demo_program") matching_results
                no_files demo_saved eq_refl) as [Hload [_ Heq]].
  split; [exact Hload|].
  apply Heq; vm_compute; reflexivity.
Defined.

(** * Further properties *)

Unset Implicit Arguments.

(** ** Normalizer *)

Lemma flat_map_concat (A B : Type) (f : A -> list B) (l m : list A) :
  flat_map f (l ++ m) = flat_map f l ++ flat_map f m.
Proof.
  induction l as [|a l IH]; simpl; [reflexivity|].
  rewrite IH, app_assoc. reflexivity.
Qed.

Lemma flat_map_flat_map (A B C : Type) (f : A -> list B) (g : B -> list C) l :
  flat_map g (flat_map f l) = flat_map (fun a => flat_map g (f a)) l.
Proof.
  induction l as [|a l IH]; simpl; [reflexivity|].
  rewrite flat_map_concat, IH. reflexivity.
Qed.

(** The three substitutions in a row act on each code point apart. *)
Lemma replace_chain s :
  replace (py "k") (py "000")
    (replace capital_omega (py "ohm") (replace micro_sign (py "u") s))
  = flat_map substitute s.
Proof.
  unfold micro_sign, capital_omega. change (py "k") with [107%N].
  rewrite !replace_char, !flat_map_flat_map.
  apply flat_map_ext. intros c. unfold substitute.
  destruct (N.eqb_spec 181 c) as [<-|H1]; [reflexivity|].
  destruct (N.eqb_spec c 181) as [->|_]; [congruence|].
  cbn [flat_map app].
  destruct (N.eqb_spec 937 c) as [<-|H2]; [reflexivity|].
  destruct (N.eqb_spec c 937) as [->|_]; [congruence|].
  cbn [flat_map app].
  destruct (N.eqb_spec 107 c) as [<-|H3]; [reflexivity|].
  destruct (N.eqb_spec c 107) as [->|_]; [congruence|].
  reflexivity.
Qed.

Lemma normalize_units_str s :
  normalize_units (VStr s) = strip (lower (flat_map substitute s)).
Proof. unfold normalize_units, str. rewrite replace_chain. reflexivity. Qed.





Lemma lstrip_nil s : lstrip s = [] <-> blank s = true.
Proof.
  unfold blank. induction s as [|c s IH]; simpl; [tauto|].
  destruct (is_space c); simpl; [exact IH|]. split; discriminate.
Qed.

Lemma blank_rev s : blank (rev s) = blank s.
Proof.
  unfold blank. destruct (forallb is_space s) eqn:E.
  - rewrite forallb_forall in E |- *. intros c Hc. apply E, in_rev, Hc.
  - destruct (forallb is_space (rev s)) eqn:E'; [|reflexivity].
    rewrite forallb_forall in E'.
    assert (H : forallb is_space s = true)
      by (apply forallb_forall; intros c Hc; apply E', in_rev;
          rewrite rev_involutive; exact Hc).
    congruence.
Qed.

Lemma strip_nil s : strip s = [] <-> blank s = true.
Proof.
  unfold strip, rstrip. split.
  - intros H. apply (f_equal (@rev codepoint)) in H.
    rewrite rev_involutive in H. simpl in H.
    apply lstrip_nil in H. rewrite blank_rev in H.
    destruct (lstrip s) as [|c t] eqn:E; [apply lstrip_nil, E|].
    apply lstrip_head in E. unfold blank in H. simpl in H.
    rewrite E in H. discriminate.
  - intros H. apply lstrip_nil in H. rewrite H. reflexivity.
Qed.

Lemma lower_cp_space c : is_space (lower_cp c) = is_space c.
Proof.
  pose proof (lower_cp_spec c) as H.
  destruct (is_space (lower_cp c)) eqn:E1, (is_space c) eqn:E2;
    try reflexivity; unfold is_space in E1, E2; bool_to_prop; lia.
Qed.

Lemma blank_lower s : blank (lower s) = blank s.
Proof.
  unfold blank, lower. induction s as [|c s IH]; simpl; [reflexivity|].
  rewrite lower_cp_space, IH. reflexivity.
Qed.

Lemma blank_substitute c : blank (substitute c) = is_space c.
Proof.
  unfold substitute, blank.
  destruct (N.eqb_spec c 181) as [->|_]; [reflexivity|].
  destruct (N.eqb_spec c 937) as [->|_]; [reflexivity|].
  destruct (N.eqb_spec c 107) as [->|_]; [reflexivity|].
  simpl. apply andb_true_r.
Qed.

Lemma blank_flat_map_substitute s : blank (flat_map substitute s) = blank s.
Proof.
  induction s as [|c s IH]; [reflexivity|].
  cbn [flat_map]. unfold blank in *. rewrite forallb_app. simpl.
  rewrite IH. f_equal. apply blank_substitute.
Qed.

Lemma str_N_not_nil n : str_N n <> [].
Proof.
  unfold str_N. destruct n as [|p]; [discriminate|]. simpl.
  pose proof (Unsigned.to_uint_nonnil p) as H.
  destruct (Pos.to_uint p); [contradiction | discriminate ..].
Qed.

Lemma str_int_not_nil z : str_int z <> [].
Proof. destruct z; simpl; try discriminate; apply str_N_not_nil. Qed.

Lemma layout_not_nil ds decpt : layout ds decpt <> [].
Proof.
  unfold layout. intros H.
  repeat match type of H with
         | (if ?b then _ else _) = [] => destruct b
         end;
    apply (f_equal (@List.length codepoint)) in H;
    rewrite ?length_app in H; simpl in H; rewrite ?length_app in H;
    simpl in H; lia.
Qed.

Lemma repr_not_nil x : repr x <> [].
Proof.
  destruct x as [s|s| |s m e]; simpl; try (destruct s; discriminate);
    try discriminate.
  destruct (shortest m e) as [ds decpt]. intros H.
  apply app_eq_nil in H. destruct H as [_ H]. exact (@layout_not_nil _ _ H).
Qed.

(** X2: [normalize_units] returns the empty string exactly for a string
    of white space only (the empty string included); a number never
    normalizes to the empty string. *)
Theorem normalize_units_empty (x : value) :
  normalize_units x = [] <-> exists s, x = VStr s /\ blank s = true.
Proof.
  destruct x as [s|z|f|b|].
  - rewrite normalize_units_str, strip_nil, blank_lower,
      blank_flat_map_substitute.
    split; [intros H; exists s; split; [reflexivity | exact H]|].
    intros (s' & E & H). injection E as <-. exact H.
  - rewrite normalize_units_int. split.
    + intros H. destruct (@str_int_not_nil z H).
    + intros (s & E & _). discriminate.
  - rewrite normalize_units_float. split.
    + intros H. destruct (@repr_not_nil f H).
    + intros (s & E & _). discriminate.
  - split; [destruct b; discriminate|]. intros (s & E & _). discriminate.
  - split; [discriminate|]. intros (s & E & _). discriminate.
Qed.

Lemma substitute_lower c :
  case_sensitive c = false ->
  lower (substitute (lower_cp c)) = lower (substitute c).
Proof.
  unfold case_sensitive. intros Hc. apply orb_false_iff in Hc.
  destruct Hc as [Hk Ho]. apply N.eqb_neq in Ho.
  destruct (N.eq_dec c 181) as [->|Hm]; [reflexivity|].
  destruct (N.eq_dec c 107) as [->|Hk']; [reflexivity|].
  assert (Hd : substitute (lower_cp c) = [lower_cp c]).
  { unfold substitute.
    destruct (N.eqb_spec (lower_cp c) 181) as [E|_];
      [apply lower_cp_micro in E; contradiction|].
    destruct (N.eqb_spec (lower_cp c) 937) as [E|_];
      [destruct (@lower_cp_omega c E)|].
    destruct (N.eqb_spec (lower_cp c) 107) as [E|_]; [|reflexivity].
    apply lower_cp_k in E. destruct E; congruence. }
  assert (Hc : substitute c = [c]).
  { unfold substitute.
    destruct (N.eqb_spec c 181); [contradiction|].
    destruct (N.eqb_spec c 937); [contradiction|].
    destruct (N.eqb_spec c 107); [contradiction | reflexivity]. }
  rewrite Hd, Hc. simpl. rewrite lower_cp_idempotent. reflexivity.
Qed.

Lemma lower_substitute_lower s :
  forallb (fun c => negb (case_sensitive c)) s = true ->
  lower (flat_map substitute (lower s)) = lower (flat_map substitute s).
Proof.
  unfold lower. induction s as [|c s IH]; simpl; [reflexivity|].
  rewrite andb_true_iff, negb_true_iff. intros [Hc Hs].
  rewrite !map_app, (IH Hs). f_equal. apply (@substitute_lower c Hc).
Qed.

Lemma ascii_case_sensitive s :
  forallb is_ascii s = true ->
  no_capital_k (VStr s) = true ->
  forallb (fun c => negb (case_sensitive c)) s = true.
Proof.
  cbn [no_capital_k]. rewrite !forallb_forall. intros Hascii Hk c Hc.
  specialize (Hascii c Hc). specialize (Hk c Hc).
  unfold case_sensitive. apply negb_true_iff in Hk. rewrite Hk. cbn [orb].
  unfold is_ascii in Hascii. apply N.ltb_lt in Hascii.
  apply negb_true_iff, N.eqb_neq. lia.
Qed.

(** X3: two strings of Basic Latin that differ in letter case only
    normalize to the same string, provided neither holds a capital K. *)
Theorem normalize_units_ignores_case (s t : pystr) :
  forallb is_ascii s = true ->
  forallb is_ascii t = true ->
  no_capital_k (VStr s) = true ->
  no_capital_k (VStr t) = true ->
  lower s = lower t ->
  normalize_units (VStr s) = normalize_units (VStr t).
Proof.
  intros Hs Ht Hks Hkt Hst. rewrite !normalize_units_str.
  rewrite <- (lower_substitute_lower s (ascii_case_sensitive s Hs Hks)).
  rewrite <- (lower_substitute_lower t (ascii_case_sensitive t Ht Hkt)).
  rewrite Hst. reflexivity.
Qed.

Lemma normalize_units_ignores_case_witness :
  lower (py "SMD Resistor") = lower (py "smd resistor")
  /\ normalize_units (VStr (py "SMD Resistor"))
     = normalize_units (VStr (py "smd resistor")).
Proof.
  split; [reflexivity|].
  apply (normalize_units_ignores_case (py "SMD Resistor") (py "smd resistor"));
    reflexivity.
Defined.

(** ** Tolerance comparator *)

Lemma leb_zero_sign s tolerance :
  leb zero tolerance = true -> leb (S754_zero s) tolerance = true.
Proof. destruct tolerance; exact (fun H => H). Qed.

(** X4: for a tolerance >= 0, a value is within tolerance of itself
    exactly when it parses to a finite number other than zero: a zero, an
    infinity and a NaN are out of tolerance of themselves. *)
Theorem within_tolerance_of_itself (x : value) (tolerance f : float) :
  leb zero tolerance = true ->
  float_of x = Ok f ->
  (within_tolerance x x tolerance = true
   <-> is_finite f = true /\ is_zero f = false).
Proof.
  intros Htol Hf. unfold within_tolerance, within_tolerance_try.
  rewrite Hf. cbn [bind]. destruct f as [s|s| |s m e].
  - cbn. split; [discriminate | intros [_ H]; discriminate].
  - destruct s; cbn; (split; [discriminate | intros [H _]; discriminate]).
  - cbn. split; [discriminate | intros [H _]; discriminate].
  - unfold sub, SFsub. rewrite Z.sub_diag. cbn [binary_normalize abs SFabs].
    unfold div. cbn [is_zero bind SFdiv].
    split; [intros _; split; reflexivity | intros _].
    apply leb_zero_sign, Htol.
Qed.

Lemma within_tolerance_of_itself_witness :
  leb zero default_tolerance = true
  /\ float_of (VStr (py "4.7"))
     = Ok (S754_finite false 5291729562160333 (-50))
  /\ within_tolerance (VStr (py "4.7")) (VStr (py "4.7")) default_tolerance
     = true.
Proof.
  split; [reflexivity | split; [vm_compute; reflexivity|]].
  apply (proj2 (@within_tolerance_of_itself (VStr (py "4.7"))
                  default_tolerance
                  (S754_finite false 5291729562160333 (-50))
                  eq_refl ltac:(vm_compute; reflexivity))).
  split; reflexivity.
Defined.

(** ** Matcher, field by field *)

Lemma check_key_by_field component_data spec st entry :
  check_key component_data spec st entry
  = {| matched :=
         matched st && is_nil (field_reasons component_data spec entry);
       reasons := reasons st ++ field_reasons component_data spec entry |}.
Proof.
  destruct st as [m rs], entry as [key required].
  unfold check_key, field_reasons, spec_val_of, comp_val_of, fail.
  cbn [fst snd matched reasons].
  destruct (is_nil _ || is_nil _); cbn [is_nil]; [rewrite andb_false_r; reflexivity|].
  destruct (PyStr.eqb _ _); cbn [negb app reasons matched];
    destruct (has_digit _ && has_digit _); cbn [andb];
    try destruct (within_tolerance _ _ _); cbn [negb is_nil app];
    rewrite ?andb_true_r, ?andb_false_r, ?app_nil_r, <- ?app_assoc;
    reflexivity.
Qed.

Lemma fold_check_key_by_field component_data spec entries st :
  fold_left (check_key component_data spec) entries st
  = {| matched :=
         matched st
         && forallb (fun entry =>
                       is_nil (field_reasons component_data spec entry))
              entries;
       reasons :=
         reasons st ++ flat_map (field_reasons component_data spec) entries |}.
Proof.
  revert st; induction entries as [|entry entries IH]; intros st.
  - destruct st. simpl. rewrite andb_true_r, app_nil_r. reflexivity.
  - cbn [fold_left forallb flat_map]. rewrite IH, check_key_by_field.
    cbn [matched reasons]. rewrite andb_assoc, app_assoc. reflexivity.
Qed.

(** X5: the pass over the requirements for one spec records, in
    requirement order, the reasons of each field: the missing-key reason
    alone for a field missing or blank in the component or the spec,
    otherwise the mismatch reason when the spec differs from the
    requirement, then the out-of-tolerance reason when both values hold a
    digit and the tolerance check fails; the spec is accepted exactly
    when no reason is recorded. *)
Theorem scan_spec_by_field (component_data spec user_inputs : dict) :
  reasons (scan_spec component_data spec user_inputs)
  = flat_map (field_reasons component_data spec) user_inputs
  /\ matched (scan_spec component_data spec user_inputs)
     = is_nil (reasons (scan_spec component_data spec user_inputs)).
Proof.
  unfold scan_spec. rewrite fold_check_key_by_field. cbn [matched reasons app].
  split; [reflexivity|].
  induction user_inputs as [|entry entries IH]; [reflexivity|].
  cbn [forallb flat_map].
  destruct (field_reasons component_data spec entry); [exact IH | reflexivity].
Qed.

Lemma accepted_by_field component_data spec user_inputs :
  accepted component_data user_inputs spec
  = forallb (fun entry => is_nil (field_reasons component_data spec entry))
      user_inputs.
Proof.
  unfold accepted, scan_spec. rewrite fold_check_key_by_field. reflexivity.
Qed.

Lemma reasons_by_field component_data spec user_inputs :
  reasons (scan_spec component_data spec user_inputs)
  = flat_map (field_reasons component_data spec) user_inputs.
Proof.
  unfold scan_spec. rewrite fold_check_key_by_field. reflexivity.
Qed.

(** The scan of the specs stops at the first one accepted. *)
Lemma scan_specs_first_accepted component_data user_inputs before spec after
  bound :
  none_accepted component_data before user_inputs ->
  accepted component_data user_inputs spec = true ->
  scan_specs component_data (before ++ spec :: after) user_inputs bound
  = Ok (true, matches_message spec).
Proof.
  unfold accepted. intros Hnone Hacc. revert bound.
  induction Hnone as [|spec0 rest Hrej _ IH]; intros bound; cbn [app scan_specs].
  - rewrite Hacc. reflexivity.
  - rewrite Hrej. apply IH.
Qed.

(** X6: first match wins: when a spec is accepted and none before it is,
    [match_component_to_spec] returns match = true with the message that
    names that spec's [id] ("N/A" without one), whatever specs follow. *)
Theorem first_accepted_spec_wins
  (component_data user_inputs : dict) (before : list dict) (spec : dict)
  (after : list dict) :
  none_accepted component_data before user_inputs ->
  matched (scan_spec component_data spec user_inputs) = true ->
  match_component_to_spec component_data (before ++ spec :: after) user_inputs
  = Ok (true,
        py "Component matches SAE specification: "
        ++ str (get spec (py "id") (VStr (py "N/A")))).
Proof.
  intros Hnone Hacc. unfold match_component_to_spec.
  apply scan_specs_first_accepted; assumption.
Qed.

Lemma first_accepted_spec_wins_witness :
  none_accepted resistor_100 [capacitor_spec] wants_resistor_100
  /\ matched (scan_spec resistor_100 resistor_spec wants_resistor_100) = true
  /\ match_component_to_spec resistor_100
       ([capacitor_spec] ++ resistor_spec :: [smd_resistor_spec])
       wants_resistor_100
     = Ok (true,
           py "Component matches SAE specification: "
           ++ str (get resistor_spec (py "id") (VStr (py "N/A")))).
Proof.
  assert (Hnone : none_accepted resistor_100 [capacitor_spec]
                    wants_resistor_100) by (repeat constructor).
  assert (Hacc : matched (scan_spec resistor_100 resistor_spec
                            wants_resistor_100) = true)
    by (vm_compute; reflexivity).
  split; [exact Hnone | split; [exact Hacc|]].
  exact (@first_accepted_spec_wins resistor_100 wants_resistor_100
           [capacitor_spec] resistor_spec [smd_resistor_spec] Hnone Hacc).
Defined.

Lemma none_accepted_or_first component_data user_inputs sae_specs :
  none_accepted component_data sae_specs user_inputs
  \/ exists before spec after,
       sae_specs = before ++ spec :: after
       /\ none_accepted component_data before user_inputs
       /\ accepted component_data user_inputs spec = true.
Proof.
  induction sae_specs as [|spec0 rest IH].
  - left. constructor.
  - destruct (accepted component_data user_inputs spec0) eqn:E.
    + right. exists [], spec0, rest. repeat split; [constructor | exact E].
    + destruct IH as [Hnone|(before & spec & after & -> & Hnone & Hacc)].
      * left. constructor; assumption.
      * right. exists (spec0 :: before), spec, after.
        repeat split; [constructor; assumption | exact Hacc].
Qed.

(** X7: [match_component_to_spec] raises exactly when the spec sequence
    is empty, and then it is [UnboundLocalError]; it returns match = true
    exactly when some spec of the sequence is accepted; it returns
    match = false exactly when the sequence is not empty and no spec is
    accepted. *)
Theorem match_component_to_spec_outcomes
  (component_data : dict) (sae_specs : list dict) (user_inputs : dict) :
  ((exists e,
      match_component_to_spec component_data sae_specs user_inputs = Raise e)
   <-> sae_specs = [])
  /\ (sae_specs = [] ->
      match_component_to_spec component_data sae_specs user_inputs
      = Raise UnboundLocalError)
  /\ ((exists message,
         match_component_to_spec component_data sae_specs user_inputs
         = Ok (true, message))
      <-> Exists (fun spec =>
                    matched (scan_spec component_data spec user_inputs) = true)
            sae_specs)
  /\ ((exists message,
         match_component_to_spec component_data sae_specs user_inputs
         = Ok (false, message))
      <-> sae_specs <> []
          /\ Forall (fun spec =>
                       matched (scan_spec component_data spec user_inputs)
                       = false)
               sae_specs).
Proof.
  unfold match_component_to_spec.
  destruct (none_accepted_or_first component_data user_inputs sae_specs)
    as [Hnone|(before & spec & after & -> & Hnone & Hacc)].
  - rewrite (scan_specs_none_accepted _ Hnone).
    assert (Hno : ~ Exists (fun spec =>
                     matched (scan_spec component_data spec user_inputs) = true)
                    sae_specs).
    { intros Hex. apply Exists_exists in Hex. destruct Hex as (spec & Hin & Hacc).
      unfold none_accepted in Hnone. rewrite Forall_forall in Hnone.
      rewrite (Hnone spec Hin) in Hacc. discriminate. }
    destruct sae_specs as [|spec0 rest].
    + split; [split; [reflexivity | intros _; eexists; reflexivity]|].
      split; [reflexivity|].
      split; (split; [intros (message & H); discriminate|]).
      * intros Hex. destruct (Hno Hex).
      * intros [H _]. congruence.
    + split; [split; [intros (e & H); discriminate | discriminate]|].
      split; [discriminate|].
      split; split.
      * intros (message & H). discriminate.
      * intros Hex. destruct (Hno Hex).
      * intros _. split; [discriminate | exact Hnone].
      * intros _. eexists; reflexivity.
  - rewrite (@scan_specs_first_accepted _ _ _ _ after None Hnone Hacc).
    assert (Hne : before ++ spec :: after <> [])
      by (intros H; apply app_eq_nil in H; destruct H; discriminate).
    split; [split; [intros (e & H); discriminate | congruence]|].
    split; [congruence|].
    split; split.
    + intros _. apply Exists_exists. exists spec.
      split; [apply in_or_app; right; left; reflexivity | exact Hacc].
    + intros _. eexists; reflexivity.
    + intros (message & H). discriminate.
    + intros [_ Hall]. rewrite Forall_forall in Hall.
      unfold accepted in Hacc.
      rewrite (Hall spec) in Hacc by (apply in_or_app; right; left; reflexivity).
      discriminate.
Qed.

Lemma match_component_to_spec_outcomes_witness :
  Exists (fun spec =>
            matched (scan_spec resistor_100 spec wants_resistor_100) = true)
    [capacitor_spec; resistor_spec]
  /\ exists message,
       match_component_to_spec resistor_100 [capacitor_spec; resistor_spec]
         wants_resistor_100 = Ok (true, message).
Proof.
  assert (Hex : Exists (fun spec =>
                          matched (scan_spec resistor_100 spec
                                     wants_resistor_100) = true)
                  [capacitor_spec; resistor_spec])
    by (apply Exists_cons_tl, Exists_cons_hd; vm_compute; reflexivity).
  split; [exact Hex|].
  exact (proj2 (proj1 (proj2 (proj2
           (match_component_to_spec_outcomes resistor_100
              [capacitor_spec; resistor_spec] wants_resistor_100)))) Hex).
Defined.

Lemma normalize_units_blank s : blank s = true -> normalize_units (VStr s) = [].
Proof.
  intros H. rewrite normalize_units_str. apply strip_nil.
  rewrite blank_lower, blank_flat_map_substitute. exact H.
Qed.

Lemma comp_val_of_missing component_data key :
  lookup component_data key = None
  \/ (exists s, lookup component_data key = Some (VStr s) /\ blank s = true) ->
  comp_val_of component_data key = [].
Proof.
  unfold comp_val_of, get. intros [->|(s & -> & Hs)].
  - reflexivity.
  - apply normalize_units_blank, Hs.
Qed.

Lemma field_reasons_missing component_data spec key required :
  comp_val_of component_data key = [] ->
  field_reasons component_data spec (key, required) = [missing_key key].
Proof. unfold field_reasons. cbn [fst snd]. intros ->. reflexivity. Qed.

(** X8: a component in which a required field is absent, or a blank
    string, matches no spec: with a non-empty spec sequence
    [match_component_to_spec] returns match = false, and the reasons
    joined in its message include "Missing key: <field> in component or
    spec.". *)
Theorem missing_field_never_matches
  (component_data : dict) (sae_specs : list dict) (user_inputs : dict)
  (key : pystr) (required : value) :
  sae_specs <> [] ->
  In (key, required) user_inputs ->
  lookup component_data key = None
  \/ (exists s, lookup component_data key = Some (VStr s) /\ blank s = true) ->
  exists rs,
    match_component_to_spec component_data sae_specs user_inputs
    = Ok (false, py "No SAE spec match found. Issues: " ++ join (py "; ") rs)
    /\ In (py "Missing key: " ++ key ++ py " in component or spec.") rs.
Proof.
  intros Hne Hin Hmiss. apply comp_val_of_missing in Hmiss.
  assert (Hnone : none_accepted component_data sae_specs user_inputs).
  { apply Forall_forall. intros spec _.
    change (accepted component_data user_inputs spec = false).
    rewrite accepted_by_field.
    destruct (forallb _ user_inputs) eqn:E; [|reflexivity].
    rewrite forallb_forall in E. specialize (E _ Hin).
    rewrite (field_reasons_missing _ spec _ required Hmiss) in E.
    discriminate. }
  exists (reasons (scan_spec component_data (last sae_specs []) user_inputs)).
  split.
  - unfold match_component_to_spec.
    rewrite (scan_specs_none_accepted None Hnone).
    destruct sae_specs; [congruence | reflexivity].
  - rewrite reasons_by_field. apply in_flat_map. exists (key, required).
    split; [exact Hin|]. rewrite (field_reasons_missing _ _ _ required Hmiss).
    left. reflexivity.
Qed.

Lemma missing_field_never_matches_witness :
  lookup valueless_part (py "type") = None
  /\ exists rs,
       match_component_to_spec valueless_part [capacitor_spec; resistor_spec]
         wants_resistor
       = Ok (false,
             py "No SAE spec match found. Issues: " ++ join (py "; ") rs)
       /\ In (py "Missing key: " ++ py "type" ++ py " in component or spec.")
            rs.
Proof.
  split; [reflexivity|].
  apply (@missing_field_never_matches valueless_part
           [capacitor_spec; resistor_spec] wants_resistor (py "type")
           (VStr (py "resistor"))).
  - discriminate.
  - left. reflexivity.
  - left. reflexivity.
Defined.

Lemma fold_left_ext_in (A B : Type) (f g : A -> B -> A) (l : list B) (a : A) :
  (forall x b, In b l -> f x b = g x b) -> fold_left f l a = fold_left g l a.
Proof.
  revert a; induction l as [|b l IH]; intros a H; simpl; [reflexivity|].
  rewrite (H a b) by (left; reflexivity). apply IH.
  intros x b' Hb. apply H. right; exact Hb.
Qed.

Lemma scan_spec_required_keys component1 component2 spec user_inputs :
  (forall key required,
     In (key, required) user_inputs ->
     lookup component1 key = lookup component2 key) ->
  scan_spec component1 spec user_inputs = scan_spec component2 spec user_inputs.
Proof.
  intros Hsame. unfold scan_spec. apply fold_left_ext_in.
  intros st [key required] Hin. unfold check_key, get.
  rewrite (Hsame key required Hin). reflexivity.
Qed.

(** X9: the matcher reads the component under the required fields only:
    two components with the same cells under every key of the user
    requirements get the same outcome, whatever their other fields. *)
Theorem unrequired_fields_ignored
  (component1 component2 : dict) (sae_specs : list dict) (user_inputs : dict) :
  (forall key required,
     In (key, required) user_inputs ->
     lookup component1 key = lookup component2 key) ->
  match_component_to_spec component1 sae_specs user_inputs
  = match_component_to_spec component2 sae_specs user_inputs.
Proof.
  intros Hsame. unfold match_component_to_spec. generalize (@None (list pystr)).
  induction sae_specs as [|spec rest IH]; intros bound; cbn [scan_specs].
  - reflexivity.
  - rewrite (scan_spec_required_keys _ _ spec _ Hsame).
    destruct (matched _); [reflexivity | apply IH].
Qed.

Lemma unrequired_fields_ignored_witness :
  resistor_100 <> resistor_100_tht
  /\ match_component_to_spec resistor_100 [resistor_spec] wants_resistor_100
     = match_component_to_spec resistor_100_tht [resistor_spec]
         wants_resistor_100.
Proof.
  split; [discriminate|].
  apply (@unrequired_fields_ignored resistor_100 resistor_100_tht
           [resistor_spec] wants_resistor_100).
  intros key required [H|[H|[]]]; injection H as <- _; reflexivity.
Defined.

(** ** Alternative suggester, further *)

Lemma differing_fields_length component spec :
  (List.length (differing_fields component spec) <= List.length component)%nat.
Proof.
  unfold differing_fields. induction component as [|[k v] rest IH];
    [simpl; lia|].
  cbn [flat_map fst snd List.length]. rewrite length_app.
  destruct (lookup spec k) as [w|]; [destruct (PyStr.eqb _ _)|];
    cbn [List.length Nat.add].
  - apply le_S. exact IH.
  - apply le_n_S. exact IH.
  - apply le_S. exact IH.
Qed.

(** X10: for a component of at most two fields every spec of the
    sequence is suggested, in order, whatever the spec holds: the two
    fields cannot make more than two differences. *)
Theorem small_component_all_suggested
  (component : dict) (sae_specs : list dict) :
  (List.length component <= 2)%nat ->
  map cand_spec (suggest_alternatives component sae_specs) = sae_specs.
Proof.
  intros Hsmall. unfold suggest_alternatives.
  rewrite fold_note_candidate. cbn [app]. rewrite map_map. cbn [cand_spec].
  rewrite map_id. induction sae_specs as [|spec rest IH]; [reflexivity|].
  cbn [filter]. unfold near_miss at 1.
  pose proof (differing_fields_length component spec) as Hlen.
  destruct (Nat.leb_spec (List.length (differing_fields component spec)) 2);
    [|lia].
  f_equal. exact IH.
Qed.

Lemma small_component_all_suggested_witness :
  (List.length capacitor_part <= 2)%nat
  /\ map cand_spec
       (suggest_alternatives capacitor_part
          [tht_inductor_spec; resistor_spec; inductor_spec])
     = [tht_inductor_spec; resistor_spec; inductor_spec].
Proof.
  split; [vm_compute; lia|].
  apply (small_component_all_suggested capacitor_part
           [tht_inductor_spec; resistor_spec; inductor_spec]).
  vm_compute. lia.
Defined.

Lemma differing_fields_agree component spec :
  (forall k v w,
     In (k, v) component -> lookup spec k = Some w ->
     normalize_units v = normalize_units w) ->
  differing_fields component spec = [].
Proof.
  unfold differing_fields. induction component as [|[k v] rest IH]; intros H;
    [reflexivity|].
  cbn [flat_map fst snd]. rewrite IH by (intros; eapply H; [right|]; eassumption).
  destruct (lookup spec k) as [w|] eqn:E; [|reflexivity].
  rewrite (H k v w (or_introl eq_refl) E), eqb_refl. reflexivity.
Qed.

(** X11: a spec that agrees with the component, after normalization, on
    every field the two share is suggested with an empty list of
    differences; so is, in particular, a spec that shares no field with
    the component. *)
Theorem agreeing_spec_suggested
  (component : dict) (sae_specs : list dict) (spec : dict) :
  In spec sae_specs ->
  (forall k v w,
     In (k, v) component -> lookup spec k = Some w ->
     normalize_units v = normalize_units w) ->
  In {| cand_spec := spec; cand_differences := [] |}
    (suggest_alternatives component sae_specs).
Proof.
  intros Hin Hagree. unfold suggest_alternatives.
  rewrite fold_note_candidate. cbn [app]. apply in_map_iff. exists spec.
  rewrite (differing_fields_agree component spec Hagree).
  split; [reflexivity|]. apply filter_In. split; [exact Hin|].
  unfold near_miss. rewrite (differing_fields_agree component spec Hagree).
  reflexivity.
Qed.

Lemma agreeing_spec_suggested_witness :
  In inductor_spec [resistor_spec; inductor_spec]
  /\ In {| cand_spec := inductor_spec; cand_differences := [] |}
       (suggest_alternatives valueless_part [resistor_spec; inductor_spec]).
Proof.
  assert (Hin : In inductor_spec [resistor_spec; inductor_spec])
    by (right; left; reflexivity).
  split; [exact Hin|].
  apply (agreeing_spec_suggested valueless_part
           [resistor_spec; inductor_spec] inductor_spec Hin).
  intros k v w [H|[]] Hw. injection H as <- <-. discriminate Hw.
Defined.

(** ** Bulk evaluator, further *)

Lemma match_component_to_spec_messages component_data sae_specs user_inputs
  is_match reason :
  match_component_to_spec component_data sae_specs user_inputs
  = Ok (is_match, reason) ->
  if is_match
  then exists spec, In spec sae_specs /\ reason = matches_message spec
  else exists rs, reason = no_match_message rs.
Proof.
  unfold match_component_to_spec.
  destruct (none_accepted_or_first component_data user_inputs sae_specs)
    as [Hnone|(before & spec & after & -> & Hnone & Hacc)].
  - rewrite (scan_specs_none_accepted None Hnone).
    destruct sae_specs; [discriminate|].
    intros H; injection H as <- <-. eexists; reflexivity.
  - rewrite (scan_specs_first_accepted _ _ _ _ after None Hnone Hacc).
    intros H; injection H as <- <-. exists spec.
    split; [apply in_or_app; right; left; reflexivity | reflexivity].
Qed.

Lemma evaluate_row_shape sae_specs user_inputs row r :
  evaluate_row sae_specs user_inputs row = Ok r ->
  res_component r = row
  /\ res_summary r
     = generate_component_summary row (res_match r) (res_reason r)
  /\ res_alternatives r
     = (if res_match r then [] else suggest_alternatives row sae_specs)
  /\ (if res_match r
      then exists spec, In spec sae_specs /\ res_reason r = matches_message spec
      else exists rs, res_reason r = no_match_message rs).
Proof.
  unfold evaluate_row.
  destruct (match_component_to_spec row sae_specs user_inputs)
    as [[is_match reason]|e] eqn:E; [|discriminate].
  cbn [bind]. intros H; injection H as <-. cbn.
  repeat split; [destruct is_match; reflexivity|].
  exact (match_component_to_spec_messages _ _ _ _ _ E).
Qed.

(** X12: in every result the bulk evaluator returns, the alternatives
    are empty when [match] is true, and are those the suggester gives for
    the result's own component when [match] is false. *)
Theorem alternatives_only_without_match
  (component_df sae_specs : list dict) (user_inputs : dict)
  (completion : list nat) (results : list EvaluationResult) :
  process_bulk_components component_df sae_specs user_inputs completion
  = Some (Ok results) ->
  Forall (fun r =>
            (res_match r = true -> res_alternatives r = [])
            /\ (res_match r = false ->
                res_alternatives r
                = suggest_alternatives (res_component r) sae_specs))
    results.
Proof.
  intros Hrun. apply executor_map_outcomes in Hrun.
  induction Hrun as [|row r rows rs Hrow _ IH]; constructor; [|exact IH].
  apply evaluate_row_shape in Hrow.
  destruct Hrow as (-> & _ & Halt & _). rewrite Halt.
  split; intros ->; reflexivity.
Qed.

Lemma alternatives_only_without_match_witness :
  exists results,
    process_bulk_components [resistor_100; capacitor_part] [resistor_spec]
      wants_resistor_100 [1; 0]%nat = Some (Ok results)
    /\ map (fun r => List.length (res_alternatives r)) results = [0; 1]%nat
    /\ Forall (fun r =>
                 (res_match r = true -> res_alternatives r = [])
                 /\ (res_match r = false ->
                     res_alternatives r
                     = suggest_alternatives (res_component r) [resistor_spec]))
         results.
Proof.
  eexists. split; [vm_compute; reflexivity|]. split; [reflexivity|].
  apply (alternatives_only_without_match
           [resistor_100; capacitor_part] [resistor_spec] wants_resistor_100
           [1; 0]%nat).
  vm_compute. reflexivity.
Defined.

(** X13: in every result the bulk evaluator returns, the reason of a
    match is "Component matches SAE specification: " followed by the [id]
    of one of the specs ("N/A" without one), the reason of a failure
    starts with "No SAE spec match found. Issues: ", and the summary is
    the summary text of the result's own component, outcome and reason. *)
Theorem result_texts
  (component_df sae_specs : list dict) (user_inputs : dict)
  (completion : list nat) (results : list EvaluationResult) :
  process_bulk_components component_df sae_specs user_inputs completion
  = Some (Ok results) ->
  Forall (fun r =>
            (res_match r = true ->
             exists spec,
               In spec sae_specs
               /\ res_reason r
                  = py "Component matches SAE specification: "
                    ++ str (get spec (py "id") (VStr (py "N/A"))))
            /\ (res_match r = false ->
                exists rs,
                  res_reason r
                  = py "No SAE spec match found. Issues: "
                    ++ join (py "; ") rs)
            /\ res_summary r
               = generate_component_summary (res_component r) (res_match r)
                   (res_reason r))
    results.
Proof.
  intros Hrun. apply executor_map_outcomes in Hrun.
  induction Hrun as [|row r rows rs Hrow _ IH]; constructor; [|exact IH].
  apply evaluate_row_shape in Hrow.
  destruct Hrow as (-> & Hsum & _ & Hreason).
  split; [|split; [|exact Hsum]].
  - intros Hm. rewrite Hm in Hreason. exact Hreason.
  - intros Hm. rewrite Hm in Hreason. exact Hreason.
Qed.

Lemma result_texts_witness :
  exists results,
    process_bulk_components [resistor_100; capacitor_part] [resistor_spec]
      wants_resistor_100 [1; 0]%nat = Some (Ok results)
    /\ Forall (fun r =>
                 (res_match r = true ->
                  exists spec,
                    In spec [resistor_spec]
                    /\ res_reason r
                       = py "Component matches SAE specification: "
                         ++ str (get spec (py "id") (VStr (py "N/A"))))
                 /\ (res_match r = false ->
                     exists rs,
                       res_reason r
                       = py "No SAE spec match found. Issues: "
                         ++ join (py "; ") rs)
                 /\ res_summary r
                    = generate_component_summary (res_component r)
                        (res_match r) (res_reason r))
         results.
Proof.
  eexists. split; [vm_compute; reflexivity|].
  apply (result_texts
           [resistor_100; capacitor_part] [resistor_spec] wants_resistor_100
           [1; 0]%nat).
  vm_compute. reflexivity.
Defined.

(** X14: with at least one spec, and every row evaluated by some worker,
    the bulk evaluator returns one result per row, and the components of
    the results are the rows of the table in the table's order, in
    whatever order the workers finish. *)
Theorem bulk_results_follow_rows
  (component_df sae_specs : list dict) (user_inputs : dict)
  (completion : list nat) :
  sae_specs <> [] ->
  all_complete (List.length component_df) completion = true ->
  exists results,
    process_bulk_components component_df sae_specs user_inputs completion
    = Some (Ok results)
    /\ map res_component results = component_df.
Proof.
  intros Hne Hall. unfold process_bulk_components.
  rewrite executor_map_sequential by exact Hall.
  assert (Htotal : forall row, In row component_df ->
                     exists r, evaluate_row sae_specs user_inputs row = Ok r)
    by (intros row _; apply evaluate_row_returns, Hne).
  destruct (sequential_map_total (evaluate_row sae_specs user_inputs)
              component_df Htotal) as (results & -> & Hrows).
  exists results. split; [reflexivity|]. clear Hall Htotal.
  induction Hrows as [|row r rows rs Hrow _ IH]; [reflexivity|].
  cbn [map]. f_equal; [|exact IH].
  apply evaluate_row_shape in Hrow. exact (proj1 Hrow).
Qed.

Lemma bulk_results_follow_rows_witness :
  [resistor_spec] <> []
  /\ all_complete 3 [2; 0; 1]%nat = true
  /\ exists results,
       process_bulk_components [resistor_100; capacitor_part; resistor_100_tht]
         [resistor_spec] wants_resistor_100 [2; 0; 1]%nat
       = Some (Ok results)
       /\ map res_component results
          = [resistor_100; capacitor_part; resistor_100_tht].
Proof.
  assert (Hne : [resistor_spec] <> []) by discriminate.
  assert (Hall : all_complete 3 [2; 0; 1]%nat = true) by reflexivity.
  split; [exact Hne | split; [exact Hall|]].
  exact (bulk_results_follow_rows
           [resistor_100; capacitor_part; resistor_100_tht] [resistor_spec]
           wants_resistor_100 [2; 0; 1]%nat Hne Hall).
Defined.

Lemma run_workers_no_jobs (A B : Type) (fn : A -> result B) completion :
  run_workers fn [] completion = [].
Proof.
  unfold run_workers. cbn [List.length repeat].
  induction completion as [|i rest IH]; [reflexivity|].
  cbn [fold_left]. unfold complete at 2.
  destruct i; exact IH.
Qed.

(** X15: on a table with no row the bulk evaluator returns the empty
    list of results, whatever the workers do, and also when the spec
    sequence is empty: no row is evaluated, so nothing raises. *)
Theorem empty_table_no_results
  (sae_specs : list dict) (user_inputs : dict) (completion : list nat) :
  process_bulk_components [] sae_specs user_inputs completion = Some (Ok []).
Proof.
  unfold process_bulk_components, executor_map.
  rewrite run_workers_no_jobs. reflexivity.
Qed.

(** ** Program store, further *)

Lemma split_no_sep sep s : ~ In sep s -> split sep s = [s].
Proof.
  induction s as [|c t IH]; intros Hs; [reflexivity|].
  cbn [split]. destruct (N.eqb_spec c sep) as [->|_].
  - exfalso. apply Hs. left. reflexivity.
  - rewrite IH by (intros H; apply Hs; right; exact H). reflexivity.
Qed.

(** A name that ends in [.json] is neither [.] nor [..]. *)
Ltac json_name_is_no_dot :=
  match goal with
  | |- context [PyStr.eqb (?name ++ ?json) ?dots] =>
      let E := fresh "E" in
      destruct (PyStr.eqb (name ++ json) dots) eqn:E;
      [apply eqb_eq in E; apply (f_equal (@List.length _)) in E;
       rewrite length_app in E; simpl in E; lia|]
  end.

Lemma parts_of_plain_name name :
  ~ In 47%N name -> parts_of (name ++ py ".json") = [name ++ py ".json"].
Proof.
  intros Hsep. unfold parts_of. rewrite split_no_sep.
  - cbn [filter]. json_name_is_no_dot. destruct name; reflexivity.
  - intros Hin. apply in_app_or in Hin. destruct Hin as [Hin|Hin];
      [tauto|]. vm_compute in Hin.
    repeat destruct Hin as [Hin|Hin]; try discriminate; contradiction.
Qed.

(** X16: under a name with no slash and no character a file name cannot
    hold, [save_program_data] writes the file [name.json] of the folder
    [local_program_data] of the working directory, and nothing else,
    provided the folder is there (it is made when the module is loaded),
    the place is no directory and the system does not refuse it. *)
Theorem save_program_data_plain_name
  (program_name : pystr) (data : pyval) (fs : filesystem) :
  forallb (fun c => negb (c =? 47)%N && encodable c) program_name = true ->
  is_dir fs (cwd fs) = true ->
  is_dir fs (cwd fs ++ [py "local_program_data"]) = true ->
  is_dir fs ((cwd fs ++ [py "local_program_data"])
             ++ [program_name ++ py ".json"]) = false ->
  refused fs ((cwd fs ++ [py "local_program_data"])
              ++ [program_name ++ py ".json"]) = false ->
  save_program_data program_name data fs
  = Ok (write_file fs
          ((cwd fs ++ [py "local_program_data"])
           ++ [program_name ++ py ".json"])
          (json_dump data)).
Proof.
  intros Hname Hcwd Hfolder Hplace Hfree.
  rewrite forallb_forall in Hname.
  assert (Hsep : ~ In 47%N program_name).
  { intros Hin. specialize (Hname _ Hin). discriminate. }
  assert (Henc : forallb encodable (program_name ++ py ".json") = true).
  { rewrite forallb_app. apply andb_true_iff. split; [|reflexivity].
    apply forallb_forall. intros c Hc. specialize (Hname c Hc).
    apply andb_true_iff in Hname. tauto. }
  assert (Hpath : program_path program_name
                  = {| anchored := false;
                       parts := [py "local_program_data";
                                 program_name ++ py ".json"] |}).
  { unfold program_path. rewrite parts_of_plain_name by exact Hsep.
    destruct program_name as [|c rest]; [reflexivity|].
    cbn [app starts_with py map list_ascii_of_string].
    destruct (N.eqb_spec (N_of_ascii "/") c) as [<-|_]; [|reflexivity].
    exfalso. apply Hsep. left. reflexivity. }
  unfold save_program_data, open_for_writing, encodable_path, resolve.
  rewrite Hpath. cbn [parts anchored forallb walk].
  rewrite Henc, Hcwd. cbn [andb negb].
  change (enter (cwd fs) (py "local_program_data"))
    with (cwd fs ++ [py "local_program_data"]).
  rewrite Hfolder. unfold enter at 1. json_name_is_no_dot.
  cbn [bind].
  replace (forallb encodable (py "local_program_data")) with true
    by reflexivity.
  cbn [andb negb].
  match goal with
  | |- context [is_dir fs ?l] =>
      replace (is_dir fs l) with false by (symmetry; exact Hplace)
  end.
  match goal with
  | |- context [refused fs ?l] =>
      replace (refused fs l) with false by (symmetry; exact Hfree)
  end.
  reflexivity.
Qed.

Lemma save_program_data_plain_name_witness :
  save_program_data (py "demo_program") (results_py matching_results)
    no_files
  = Ok demo_saved.
Proof.
  apply (save_program_data_plain_name (py "demo_program")
           (results_py matching_results) no_files); reflexivity.
Defined.

Lemma listed_dict_py d : listed (dict_py d) = dict_py d.
Proof. apply listed_tuple_free, dict_py_tuple_free. Qed.

Lemma listed_result_shows r : shows r (listed (result_py r)).
Proof.
  unfold shows, result_py. cbn [listed map fst snd getitem].
  rewrite listed_dict_py.
  repeat (split; [reflexivity|]).
  eexists. split; [reflexivity|]. rewrite !length_map. reflexivity.
Qed.

(** X17: whenever [save_program_data] returns for the results of a run,
    loading the program gives one entry per result, in order, and each
    entry holds the summary, the match flag, the reason, the risk
    reduction and the component of its result unchanged, with as many
    alternatives as the result has. *)
Theorem history_shows_saved_results
  (program_name : pystr) (results : list EvaluationResult)
  (fs fs' : filesystem) :
  save_program_data program_name (results_py results) fs = Ok fs' ->
  exists entries,
    load_program_data program_name fs' = Ok (PyList entries)
    /\ Forall2 shows results entries.
Proof.
  intros Hsave. rewrite (load_after_save _ _ _ Hsave). clear Hsave.
  unfold results_py. cbn [listed].
  eexists. split; [reflexivity|]. rewrite map_map.
  induction results as [|r rest IH]; cbn [map]; constructor;
    [apply listed_result_shows | exact IH].
Qed.

Lemma history_shows_saved_results_witness :
  save_program_data (py "demo_program") (results_py matching_results)
    no_files = Ok demo_saved
  /\ exists entries,
       load_program_data (py "demo_program") demo_saved = Ok (PyList entries)
       /\ Forall2 shows matching_results entries.
Proof.
  split; [reflexivity|].
  apply (history_shows_saved_results (py "demo_program") matching_results
           no_files demo_saved).
  reflexivity.
Defined.

(** ** Requirement form *)

Lemma is_nil_strip s : is_nil (strip s) = blank s.
Proof.
  destruct (blank s) eqn:E.
  - apply strip_nil in E. rewrite E. reflexivity.
  - destruct (strip s) eqn:Es; [|reflexivity].
    apply strip_nil in Es. congruence.
Qed.

Lemma setitem_fresh d k v :
  ~ In k (map fst d) -> setitem d k v = d ++ [(k, v)].
Proof.
  induction d as [|[k' v'] d IH]; simpl; intros Hk; [reflexivity|].
  destruct (PyStr.eqb k' k) eqn:E.
  - apply eqb_eq in E. exfalso. apply Hk. left. exact E.
  - f_equal. apply IH. intros H. apply Hk. right. exact H.
Qed.

Lemma distinct_head k rest :
  distinct (k :: rest) = true -> ~ In k rest /\ distinct rest = true.
Proof.
  simpl. rewrite andb_true_iff, negb_true_iff. intros [Hk Hrest].
  split; [|exact Hrest]. intros Hin.
  assert (Hex : existsb (PyStr.eqb k) rest = true)
    by (apply existsb_exists; exists k; split; [exact Hin | apply eqb_refl]).
  congruence.
Qed.

Lemma fold_read_requirement text_input keys acc :
  distinct keys = true ->
  (forall k, In k keys -> ~ In k (map fst acc)) ->
  fold_left (read_requirement text_input) keys acc
  = acc ++ flat_map (requirement_of text_input) keys.
Proof.
  revert acc; induction keys as [|key rest IH]; intros acc Hd Hfresh.
  - simpl. rewrite app_nil_r. reflexivity.
  - apply distinct_head in Hd. destruct Hd as [Hkey Hrest].
    cbn [fold_left flat_map]. unfold read_requirement at 2, requirement_of at 1.
    rewrite is_nil_strip. destruct (blank (text_input key)); cbn [negb app].
    + apply IH; [exact Hrest|]. intros k Hk. apply Hfresh. right. exact Hk.
    + rewrite setitem_fresh by (apply Hfresh; left; reflexivity).
      rewrite IH, <- app_assoc; [reflexivity | exact Hrest|].
      intros k Hk. rewrite map_app, in_app_iff. cbn [map fst In].
      intros [H|[H|[]]].
      * exact (Hfresh k (or_intror Hk) H).
      * subst k. exact (Hkey Hk).
Qed.

Lemma normalize_units_str_nil s :
  normalize_units (VStr s) = [] <-> blank s = true.
Proof.
  rewrite normalize_units_str, strip_nil, blank_lower,
    blank_flat_map_substitute. tauto.
Qed.

(** X18: the requirement mapping read from the form holds, in the order
    of the six fields, exactly the fields whose text is not blank, each
    with its text trimmed; and no requirement in it normalizes to the
    empty string. *)
Theorem sidebar_inputs_trimmed (text_input : pystr -> pystr) :
  sidebar_inputs text_input
  = flat_map
      (fun key =>
         if blank (text_input key) then []
         else [(key, VStr (strip (text_input key)))])
      input_keys
  /\ Forall (fun entry => normalize_units (snd entry) <> [])
       (sidebar_inputs text_input).
Proof.
  assert (E : sidebar_inputs text_input
              = flat_map (requirement_of text_input) input_keys).
  { unfold sidebar_inputs. rewrite fold_read_requirement;
      [reflexivity | reflexivity | intros k _ []]. }
  split; [exact E|].
  rewrite E. apply Forall_forall. intros [key v] Hin.
  apply in_flat_map in Hin. destruct Hin as (k & _ & Hin).
  unfold requirement_of in Hin.
  destruct (blank (text_input k)) eqn:Hb; [destruct Hin|].
  destruct Hin as [Hin|[]]. injection Hin as <- <-. cbn [snd].
  rewrite normalize_units_str_nil. intros Hblank.
  apply strip_nil in Hblank. rewrite strip_idempotent in Hblank.
  apply strip_nil in Hblank. congruence.
Qed.

(** ** File upload *)

Lemma split_not_nil sep s : split sep s <> [].
Proof.
  destruct s as [|c t]; simpl; [discriminate|].
  destruct (c =? sep)%N; [discriminate|].
  destruct (split sep t); discriminate.
Qed.

Lemma split_with_sep sep s :
  In sep s -> exists p q r, split sep s = p :: q :: r.
Proof.
  induction s as [|c t IH]; intros Hs; [destruct Hs|].
  cbn [split]. destruct (N.eqb_spec c sep) as [->|Hc].
  - destruct (split sep t) as [|q r] eqn:E;
      [destruct (split_not_nil sep t E)|].
    exists [], q, r. reflexivity.
  - destruct Hs as [Hs|Hs]; [contradiction|].
    destruct (IH Hs) as (p & q & r & ->). exists (c :: p), q, r. reflexivity.
Qed.

Lemma last_split_after_sep sep base ext :
  last (split sep (base ++ sep :: ext)) [] = last (split sep ext) [].
Proof.
  induction base as [|c base IH]; cbn [app split].
  - rewrite N.eqb_refl.
    destruct (split sep ext) as [|p r] eqn:E;
      [destruct (split_not_nil sep ext E) | reflexivity].
  - destruct (split_with_sep sep (base ++ sep :: ext)) as (p & q & r & E);
      [apply in_or_app; right; left; reflexivity|].
    rewrite E in IH |- *. destruct (c =? sep)%N; exact IH.
Qed.

Lemma extension_of_name base ext :
  ~ In 46%N ext -> extension (base ++ 46%N :: ext) = lower ext.
Proof.
  intros Hext. unfold extension.
  rewrite last_split_after_sep, split_no_sep by exact Hext.
  reflexivity.
Qed.

(** X19: [parse_uploaded_file] chooses the reader by the text after the
    last dot of the file name, whatever its letter case: [csv] is read as
    a CSV table, [xls] and [xlsx] as an Excel table, [json] as JSON,
    [docx] as the paragraphs of the document joined by newlines; with any
    other extension, [doc] included, no reader is called and the text
    "Unsupported file format" is returned. *)
Theorem parse_uploaded_file_by_extension
  (uploaded : Type) (file_name : uploaded -> pystr)
  (read_csv read_excel : uploaded -> result (list dict))
  (load_json : uploaded -> result pyval)
  (paragraphs : uploaded -> result (list pystr))
  (file : uploaded) (base ext : pystr) :
  file_name file = base ++ 46%N :: ext ->
  ~ In 46%N ext ->
  let parse :=
    parse_uploaded_file file_name read_csv read_excel load_json paragraphs
      file in
  (lower ext = py "csv" -> parse = (rows <- read_csv file ;; Ok (Frame rows)))
  /\ (lower ext = py "xls" \/ lower ext = py "xlsx" ->
      parse = (rows <- read_excel file ;; Ok (Frame rows)))
  /\ (lower ext = py "json" ->
      parse = (data <- load_json file ;; Ok (Data data)))
  /\ (lower ext = py "docx" ->
      parse = (texts <- paragraphs file ;; Ok (Text (join [10%N] texts))))
  /\ (~ In (lower ext) [py "csv"; py "xls"; py "xlsx"; py "json"; py "docx"] ->
      parse = Ok (Text (py "Unsupported file format"))).
Proof.
  intros Hname Hext parse. subst parse. unfold parse_uploaded_file.
  assert (Hx : extension (file_name file) = lower ext)
    by (rewrite Hname; apply extension_of_name, Hext).
  cbv zeta. rewrite Hx.
  split; [intros ->; reflexivity|].
  split; [intros [-> | ->]; reflexivity|].
  split; [intros ->; reflexivity|].
  split; [intros ->; reflexivity|].
  intros Hother. cbn [existsb].
  repeat match goal with
         | |- context [PyStr.eqb (lower ext) ?lit] =>
             let E := fresh "E" in
             destruct (PyStr.eqb (lower ext) lit) eqn:E;
             [apply eqb_eq in E; exfalso; apply Hother; rewrite E;
              cbn [In]; tauto|]
         end.
  reflexivity.
Qed.

Lemma parse_uploaded_file_by_extension_witness :
  parse_uploaded_file (fun name : pystr => name)
    (fun _ => Ok []) (fun _ => Ok []) (fun _ => Ok PyNone) (fun _ => Ok [])
    (py "parts.v2.DOC")
  = Ok (Text (py "Unsupported file format"))
  /\ parse_uploaded_file (fun name : pystr => name)
       (fun _ => Ok [resistor_100]) (fun _ => Ok []) (fun _ => Ok PyNone)
       (fun _ => Ok [])
       (py "parts.v2.CSV")
     = Ok (Frame [resistor_100]).
Proof.
  split.
  - apply (proj2 (proj2 (proj2 (proj2
             (parse_uploaded_file_by_extension pystr (fun name => name)
                (fun _ => Ok []) (fun _ => Ok []) (fun _ => Ok PyNone)
                (fun _ => Ok []) (py "parts.v2.DOC") (py "parts.v2") (py "DOC")
                eq_refl
                ltac:(cbn; intuition discriminate)))))).
    cbn. intuition discriminate.
  - apply (proj1
             (parse_uploaded_file_by_extension pystr (fun name => name)
                (fun _ => Ok [resistor_100]) (fun _ => Ok [])
                (fun _ => Ok PyNone) (fun _ => Ok [])
                (py "parts.v2.CSV") (py "parts.v2") (py "CSV")
                eq_refl
                ltac:(cbn; intuition discriminate))).
    reflexivity.
Defined.

(** ** Matcher and tolerance together *)

Lemma within_tolerance_zero_expected s actual tolerance x :
  of_str s = Ok x -> is_zero x = true ->
  within_tolerance (VStr s) actual tolerance = false.
Proof.
  intros Hs Hx. unfold within_tolerance, within_tolerance_try.
  cbn [float_of]. rewrite Hs. cbn [bind].
  destruct (float_of actual); cbn [bind]; [|reflexivity].
  unfold div. rewrite Hx. reflexivity.
Qed.

(** X20: a spec whose value under a required field is the number zero is
    accepted for no component that has a digit in that field, not even
    for a component with the same value: the tolerance is relative to the
    spec's value, and the division by zero counts as out of tolerance. *)
Theorem zero_spec_value_never_accepted
  (component_data spec user_inputs : dict) (key : pystr) (required : value)
  (x : float) :
  In (key, required) user_inputs ->
  has_digit (comp_val_of component_data key) = true ->
  has_digit (spec_val_of spec key) = true ->
  of_str (spec_val_of spec key) = Ok x ->
  is_zero x = true ->
  matched (scan_spec component_data spec user_inputs) = false
  /\ In (py "Out of tolerance: " ++ key ++ py " component="
         ++ comp_val_of component_data key ++ py " spec="
         ++ spec_val_of spec key)
       (reasons (scan_spec component_data spec user_inputs)).
Proof.
  intros Hin Hcomp Hspec Hparse Hzero.
  assert (Hfield : In (out_of_tolerance key (comp_val_of component_data key)
                         (spec_val_of spec key))
                     (field_reasons component_data spec (key, required))).
  { unfold field_reasons. cbn [fst snd].
    destruct (comp_val_of component_data key) as [|c0 cs] eqn:Ec;
      [discriminate|].
    destruct (spec_val_of spec key) as [|s0 ss] eqn:Es; [discriminate|].
    cbn [is_nil orb]. rewrite Hcomp, Hspec.
    rewrite (within_tolerance_zero_expected _ _ _ x Hparse Hzero).
    apply in_or_app. right. left. reflexivity. }
  assert (Hreasons : In (out_of_tolerance key (comp_val_of component_data key)
                           (spec_val_of spec key))
                       (reasons (scan_spec component_data spec user_inputs))).
  { rewrite reasons_by_field. apply in_flat_map. exists (key, required).
    split; [exact Hin | exact Hfield]. }
  split; [|exact Hreasons].
  change (accepted component_data user_inputs spec = false).
  rewrite accepted_by_field.
  destruct (forallb _ user_inputs) eqn:E; [|reflexivity].
  rewrite forallb_forall in E. specialize (E _ Hin).
  destruct (field_reasons component_data spec (key, required));
    [destruct Hfield | discriminate].
Qed.

Lemma zero_spec_value_never_accepted_witness :
  matched (scan_spec [(py "tolerance", VStr (py "0"))]
             [(py "tolerance", VStr (py "0"))]
             [(py "tolerance", VStr (py "0"))]) = false
  /\ In (py "Out of tolerance: tolerance component=0 spec=0")
       (reasons (scan_spec [(py "tolerance", VStr (py "0"))]
                   [(py "tolerance", VStr (py "0"))]
                   [(py "tolerance", VStr (py "0"))])).
Proof.
  apply (zero_spec_value_never_accepted
           [(py "tolerance", VStr (py "0"))]
           [(py "tolerance", VStr (py "0"))]
           [(py "tolerance", VStr (py "0"))]
           (py "tolerance") (VStr (py "0")) zero).
  - left. reflexivity.
  - reflexivity.
  - reflexivity.
  - reflexivity.
  - reflexivity.
Defined.
